(** * py-lstm: layers and network orchestrator

    A shallow embedding of [layers.py] and [network.py].

    - Array elements are exact integers ([Z]); an array is a shape together
      with its row-major element buffer, as numpy stores a C-contiguous array.
    - Python exceptions are values of [PyErr]; a computation that may raise
      returns a [result].
    - Blob and diff arrays live in a heap of array objects and the network's
      dictionaries map names to heap addresses, so in-place writes
      ([a[...] = v], [a.resize(...)]) and [copy.deepcopy] are told apart.
    - Python dictionaries are finite maps ([gmap]); keyword arguments are
      association lists in the order the caller wrote them. *)

From Stdlib Require Import ZArith Lia.
From stdpp Require Import base option list strings gmap sorting.

Set Default Proof Using "Type".

(** ** Exceptions and the error monad *)

Inductive PyErr : Type :=
  | UnboundLocalError
  | AttributeError
  | AssertionError
  | ValueError
  | KeyError
  | IndexError
  | TypeError
  | AxisError
  | DanglingAddress
  | Exception (msg : string).

Inductive result (A : Type) : Type :=
  | Ok (a : A)
  | Raise (e : PyErr).
Arguments Ok {A} a.
Arguments Raise {A} e.

#[global] Instance result_ret : MRet result := fun A a => Ok a.
#[global] Instance result_bind : MBind result := fun A B f r =>
  match r with
  | Ok a => f a
  | Raise e => Raise e
  end.

#[global] Instance result_fmap : FMap result := fun A B f r =>
  match r with
  | Ok a => Ok (f a)
  | Raise e => Raise e
  end.

(** A loop whose body may raise: [for x in l: s = f(s, x)]. *)
Fixpoint for_each {S A} (f : S → A → result S) (s : S) (l : list A) : result S :=
  match l with
  | [] => Ok s
  | x :: l' => s' ← f s x; for_each f s' l'
  end.

Definition is_Ok {A} (r : result A) : Prop :=
  match r with Ok _ => True | Raise _ => False end.
Definition is_Raise {A} (r : result A) : Prop :=
  match r with Ok _ => False | Raise _ => True end.

Definition from_option_err {A} (e : PyErr) (o : option A) : result A :=
  match o with Some a => Ok a | None => Raise e end.

(** ** numpy arrays *)

Record ndarray : Type := Array { shape : list nat; data : list Z }.

#[global] Instance ndarray_eq_dec : EqDecision ndarray.
Proof. solve_decision. Defined.

Module np.

(** Number of elements of an array of a given shape. *)
Definition size_of (s : list nat) : nat := foldr Nat.mul 1 s.
Definition size (a : ndarray) : nat := size_of (shape a).
Definition ndim (a : ndarray) : nat := length (shape a).

(** Every numpy array holds exactly [size] elements. *)
Definition wf (a : ndarray) : Prop := length (data a) = size a.

(** [np.zeros(s)], [np.empty((0,))], [np.zeros_like(a)], [0*a]. *)
Definition zeros (s : list nat) : ndarray := Array s (replicate (size_of s) 0%Z).
Definition empty0 : ndarray := Array [0] [].
Definition zeros_like (a : ndarray) : ndarray := zeros (shape a).
Definition scale (k : Z) (a : ndarray) : ndarray :=
  Array (shape a) (map (Z.mul k) (data a)).

(** A one-dimensional array and a zero-dimensional one. *)
Definition vector (l : list Z) : ndarray := Array [length l] l.
Definition scalar (z : Z) : ndarray := Array [] [z].

(** [a.resize(s, refcheck=False)]: the buffer is kept, cut or padded with
    zeros. *)
Definition resize (a : ndarray) (s : list nat) : ndarray :=
  Array s (take (size_of s) (data a ++ replicate (size_of s) 0%Z)).

(** [a.ravel()] *)
Definition ravel (a : ndarray) : ndarray := vector (data a).

(** Multi-indices of a shape in row-major order, and the position of a
    multi-index in the buffer (Horner scheme). *)
Fixpoint indices (s : list nat) : list (list nat) :=
  match s with
  | [] => [[]]
  | d :: s' => i ← seq 0 d; (cons i) <$> indices s'
  end.

Fixpoint ravel_index (acc : nat) (s idx : list nat) : nat :=
  match s, idx with
  | d :: s', i :: idx' => ravel_index (acc * d + i) s' idx'
  | _, _ => acc
  end.

Definition get (a : ndarray) (idx : list nat) : Z :=
  nth (ravel_index 0 (shape a) idx) (data a) 0%Z.

(** The array of shape [s] whose element at [idx] is [f idx]. *)
Definition build (s : list nat) (f : list nat → Z) : ndarray :=
  Array s (f <$> indices s).

(** *** Broadcasting *)

Definition dim_compat (d t : nat) : bool := bool_decide (d = t) || bool_decide (d = 1).

Fixpoint dims_compat (s t : list nat) : bool :=
  match s, t with
  | [], [] => true
  | d :: s', x :: t' => dim_compat d x && dims_compat s' t'
  | _, _ => false
  end.

(** An index into the target is sent to 0 along every axis of length 1. *)
Definition clip_index (s idx : list nat) : list nat :=
  zip_with (fun d i => if bool_decide (d = 1) then 0 else i) s idx.

(** [np.broadcast_to(a, t)] *)
Definition broadcast_to (a : ndarray) (t : list nat) : option ndarray :=
  if bool_decide (ndim a ≤ length t) then
    let s := replicate (length t - ndim a) 1 ++ shape a in
    if dims_compat s t then
      Some (build t (fun idx => nth (ravel_index 0 s (clip_index s idx)) (data a) 0%Z))
    else None
  else None.

(** The common shape of two operands, aligned on the right. *)
Fixpoint broadcast_dims (s t : list nat) : option (list nat) :=
  match s, t with
  | [], [] => Some []
  | d :: s', x :: t' =>
      r ← broadcast_dims s' t';
      if bool_decide (d = x) then Some (d :: r)
      else if bool_decide (d = 1) then Some (x :: r)
      else if bool_decide (x = 1) then Some (d :: r)
      else None
  | _, _ => None
  end.

Definition broadcast_shapes (s t : list nat) : option (list nat) :=
  let n := length s `max` length t in
  broadcast_dims (replicate (n - length s) 1 ++ s) (replicate (n - length t) 1 ++ t).

(** An element-wise binary operator with broadcasting. *)
Definition binop (f : Z → Z → Z) (a b : ndarray) : result ndarray :=
  match broadcast_shapes (shape a) (shape b) with
  | Some s =>
      match broadcast_to a s, broadcast_to b s with
      | Some a', Some b' => Ok (Array s (zip_with f (data a') (data b')))
      | _, _ => Raise ValueError
      end
  | None => Raise ValueError
  end.

Definition add := binop Z.add.
Definition mul := binop Z.mul.

(** [np.maximum(a, 0)] and [a > 0] (booleans are 0 and 1). *)
Definition maximum0 (a : ndarray) : ndarray :=
  Array (shape a) (map (Z.max 0) (data a)).
Definition gt0 (a : ndarray) : ndarray :=
  Array (shape a) (map (fun x => if (0 <? x)%Z then 1%Z else 0%Z) (data a)).

(** [x[...] = v]: [v], with its surplus leading axes of length 1 dropped,
    is broadcast to the shape of [x]; the shape of [x] is kept. *)
Fixpoint strip_ones (n : nat) (s : list nat) : list nat :=
  match n, s with
  | S n', 1 :: s' => strip_ones n' s'
  | _, _ => s
  end.

Definition assign (x v : ndarray) : result ndarray :=
  let v' := Array (strip_ones (ndim v - ndim x) (shape v)) (data v) in
  from_option_err ValueError (broadcast_to v' (shape x)).

(** [x.flat[...] = l] for a one-dimensional [l]: the elements of [x] are
    overwritten in order, [l] being repeated as often as needed; an empty
    [l] leaves [x] as it is. *)
Definition flat_assign (x : ndarray) (l : list Z) : ndarray :=
  match l with
  | [] => x
  | _ => Array (shape x) ((fun i => nth (i mod length l) l 0%Z) <$> seq 0 (size x))
  end.

(** [np.concatenate(l, axis=0)] of one-dimensional arrays. *)
Definition concatenate (l : list ndarray) : result ndarray :=
  match l with
  | [] => Raise ValueError
  | _ => if forallb (fun a => bool_decide (ndim a = 1)) l
         then Ok (vector (concat (data <$> l)))
         else Raise ValueError
  end.

(** *** Contractions *)

Definition sumZ (l : list Z) : Z := foldr Z.add 0%Z l.
Definition at_ (a : ndarray) (i : nat) : Z := nth i (data a) 0%Z.

(** [np.transpose(a)] and [a.transpose()]: the axes are reversed. *)
Definition transpose (a : ndarray) : ndarray :=
  build (rev (shape a)) (fun idx => get a (rev idx)).

(** [np.sum(a, axis=0)] *)
Definition sum0 (a : ndarray) : result ndarray :=
  match shape a with
  | [] => Raise AxisError
  | d :: rest =>
      let r := size_of rest in
      Ok (Array rest ((fun j => sumZ ((fun i => at_ a (i * r + j)) <$> seq 0 d)) <$> seq 0 r))
  end.

(** [np.dot(a, b)]: a product by a zero-dimensional operand is the
    element-wise one; otherwise the last axis of [a] is summed against the
    only axis of a one-dimensional [b], or against the last but one axis of
    [b]. *)
Definition dot (a b : ndarray) : result ndarray :=
  if bool_decide (ndim a = 0) || bool_decide (ndim b = 0) then mul a b
  else
    let k := List.last (shape a) 0 in
    let sa := removelast (shape a) in
    let na := size_of sa in
    match rev (shape b) with
    | [] => Raise ValueError
    | [k'] =>
        if bool_decide (k = k') then
          Ok (Array sa
                ((fun i => sumZ ((fun c => at_ a (i * k + c) * at_ b c)%Z <$> seq 0 k))
                   <$> seq 0 na))
        else Raise ValueError
    | m :: k' :: rsb =>
        if bool_decide (k = k') then
          let sb := rev rsb in
          let nb := size_of sb in
          Ok (Array (sa ++ sb ++ [m])
                (i ← seq 0 na; j ← seq 0 nb; (fun x =>
                   sumZ ((fun c => at_ a (i * k + c) * at_ b ((j * k + c) * m + x))%Z
                           <$> seq 0 k)) <$> seq 0 m))
        else Raise ValueError
    end.

(** [np.tensordot(a, b)] with the default [axes=2]: the last two axes of [a]
    are summed against the first two of [b]. *)
Definition tensordot (a b : ndarray) : result ndarray :=
  match rev (shape a), shape b with
  | q :: p :: rsa, p' :: q' :: sb =>
      if bool_decide (p = p') && bool_decide (q = q') then
        let sa := rev rsa in
        let k := p * q in
        let nb := size_of sb in
        Ok (Array (sa ++ sb)
              (i ← seq 0 (size_of sa); (fun j =>
                 sumZ ((fun c => at_ a (i * k + c) * at_ b (c * nb + j))%Z <$> seq 0 k))
                 <$> seq 0 nb))
      else Raise ValueError
  | _, _ => Raise IndexError
  end.

End np.

(** ** Python values of configuration options *)

#[warnings="-register-all"]
Inductive pyval : Type :=
  | PyNone
  | PyNum (z : Z)
  | PyStr (s : string)
  | PyTuple (l : list pyval)
  | PyList (l : list pyval).

(** [tuple(v)]: only sequences can be turned into a tuple. *)
Definition py_tuple (v : pyval) : result pyval :=
  match v with
  | PyTuple l | PyList l => Ok (PyTuple l)
  | PyStr s => Ok (PyTuple ((fun c => PyStr (String c EmptyString)) <$> String.list_ascii_of_string s))
  | PyNone | PyNum _ => Raise TypeError
  end.

(** A value used as an array shape: a tuple of non-negative integers. *)
Definition py_dim (v : pyval) : result nat :=
  match v with
  | PyNum z => if (z <? 0)%Z then Raise ValueError else Ok (Z.to_nat z)
  | _ => Raise TypeError
  end.

Definition py_shape (v : pyval) : result (list nat) :=
  match v with
  | PyTuple l => mapM (M := result) py_dim l
  | _ => Raise TypeError
  end.

(** [np.asarray(v)] for a number or a (nested) sequence of numbers. *)
Definition py_stack (subs : list ndarray) : result ndarray :=
  match subs with
  | [] => Ok (Array [0] [])
  | a :: _ =>
      if forallb (fun x => bool_decide (shape x = shape a)) subs
      then Ok (Array (length subs :: shape a) (concat (data <$> subs)))
      else Raise ValueError
  end.

Fixpoint py_array (v : pyval) : result ndarray :=
  match v with
  | PyNum z => Ok (np.scalar z)
  | PyTuple l | PyList l => subs ← mapM (M := result) py_array l; py_stack subs
  | PyNone | PyStr _ => Raise TypeError
  end.

(** ** The heap of array objects

    An address is a position in the list; allocation appends. Reading an
    address outside the heap has no counterpart in Python (a reference
    always points to an object) and yields [DanglingAddress]. *)

Module heap.

Definition read (h : list ndarray) (l : nat) : result ndarray :=
  from_option_err DanglingAddress (h !! l).

Definition write (h : list ndarray) (l : nat) (a : ndarray) : list ndarray :=
  <[l := a]> h.

Definition alloc (h : list ndarray) (a : ndarray) : list ndarray * nat :=
  (h ++ [a], length h).

End heap.

(** ** Layer objects *)

Inductive LayerClass : Type :=
  | CBaseLayer | CReLU | CSigmoid | CInnerProduct | CSoftMax.

#[global] Instance LayerClass_eq_dec : EqDecision LayerClass.
Proof. solve_decision. Defined.

(** What a name found on the class of an instance is:
    - a data attribute of the class body (a configuration option with its
      default value);
    - a function of the class body, or a method or plain attribute
      inherited from [object];
    - a property, with whether its getter reads [self.grad_] or
      [self.prms_];
    - a descriptor of [object] that refuses the assignment of a value that
      is no class or dictionary ([__class__], [__dict__]) or any
      assignment ([__weakref__]). *)
Inductive attr_kind : Type :=
  | Data (default : pyval)
  | Function
  | Property (reads_state : bool)
  | Guarded (e : PyErr).

Fixpoint assoc {A} (n : string) (l : list (string * A)) : option A :=
  match l with
  | [] => None
  | (k, v) :: l' => if bool_decide (k = n) then Some v else assoc n l'
  end.

(** The attributes every instance inherits from [object]. *)
Definition object_body : list (string * attr_kind) :=
  [("__class__", Guarded TypeError); ("__dict__", Guarded TypeError);
   ("__weakref__", Guarded AttributeError);
   ("__doc__", Function); ("__module__", Function);
   ("__init__", Function); ("__new__", Function); ("__repr__", Function);
   ("__str__", Function); ("__hash__", Function); ("__format__", Function);
   ("__eq__", Function); ("__ne__", Function); ("__lt__", Function);
   ("__le__", Function); ("__gt__", Function); ("__ge__", Function);
   ("__getattribute__", Function); ("__setattr__", Function);
   ("__delattr__", Function); ("__dir__", Function); ("__sizeof__", Function);
   ("__reduce__", Function); ("__reduce_ex__", Function);
   ("__getstate__", Function); ("__subclasshook__", Function);
   ("__init_subclass__", Function)].

Definition BaseLayer_body : list (string * attr_kind) :=
  [("__init__", Function);
   ("type", Property false);
   ("forward", Function); ("backward", Function); ("setup", Function);
   ("gradient", Property true);
   ("flat_gradient", Property true);
   ("flat_parameters", Property true);
   ("parameters", Property true);
   ("get_mutable_gradient", Function)].

Definition class_body (c : LayerClass) : list (string * attr_kind) :=
  match c with
  | CBaseLayer => []
  | CReLU => [("setup", Function); ("forward", Function); ("backward", Function)]
  | CSigmoid =>
      [("sigma", Data (PyNum 1));
       ("setup", Function); ("forward", Function); ("backward", Function)]
  | CInnerProduct =>
      [("output_shape", Data (PyNum 10)); ("__init__", Function);
       ("setup", Function); ("forward", Function); ("backward", Function)]
  | CSoftMax => [("setup", Function); ("forward", Function); ("backward", Function)]
  end.

(** Lookup along the method resolution order: the class, [BaseLayer],
    [object]. *)
Definition class_lookup (c : LayerClass) (n : string) : option attr_kind :=
  assoc n (class_body c ++ BaseLayer_body ++ object_body).


Record Layer : Type := mkLayer {
  cls : LayerClass;
  attrs : gmap string pyval;       (* instance attributes set from the options *)
  grad_ : gmap string ndarray;
  prms_ : gmap string ndarray
}.

(** [sorted(d)] for a dictionary with string keys. *)
Definition sorted {A} (d : gmap string A) : list string :=
  merge_sort String.le (map_to_list d).*1.

(** Exponential and true division leave the integers; the layers that use
    them take them from here. *)
Class Numerics : Type := { np_exp : Z → Z; np_true_divide : Z → Z → Z }.

(** ** layers.py *)

Module BaseLayer.

(** [hasattr(self, n)] while [__init__] runs, for an instance of class [c]
    whose instance dictionary is [d]. [grad_] and [prms_] are created after
    the loop over the options, so a getter that reads one of them raises
    AttributeError and the property is not found. *)
Definition hasattr (c : LayerClass) (d : gmap string pyval) (n : string) : bool :=
  match class_lookup c n with
  | Some (Property true) => false
  | Some _ => true
  | None => bool_decide (is_Some (d !! n))
  end.

(** [setattr(self, n, v)] while [__init__] runs: [type] has no setter and
    the setter of [flat_parameters] reads [self.prms_]; the guarded
    descriptors of [object] refuse; any other name is bound in the instance
    dictionary. *)
Definition setattr (c : LayerClass) (d : gmap string pyval) (n : string) (v : pyval)
  : result (gmap string pyval) :=
  match class_lookup c n with
  | Some (Property _) => Raise AttributeError
  | Some (Guarded e) => Raise e
  | Some (Data _) | Some Function | None => Ok (<[n := v]> d)
  end.

(** [self.n] for a configuration option: the instance dictionary first, then
    the default of the class. *)
Definition getattr (l : Layer) (n : string) : result pyval :=
  match attrs l !! n with
  | Some v => Ok v
  | None =>
      match class_lookup (cls l) n with
      | Some (Data v) => Ok v
      | _ => Raise AttributeError
      end
  end.

Definition not_found (n : string) : PyErr :=
  Exception ("Attribute '" +:+ n +:+ "' not found").

(** [BaseLayer.__init__(self, **lPrms)]; a keyword named [self] collides
    with the first parameter. *)
Definition init_step (c : LayerClass) (d : gmap string pyval) (kv : string * pyval)
  : result (gmap string pyval) :=
  let '(n, v) := kv in
  if hasattr c d n then setattr c d n v else Raise (not_found n).

Definition init_attrs (c : LayerClass) (lPrms : list (string * pyval))
  : result (gmap string pyval) :=
  for_each (init_step c) ∅ lPrms.

Definition __init__ (c : LayerClass) (lPrms : list (string * pyval)) : result Layer :=
  if bool_decide ("self" ∈ lPrms.*1) then Raise TypeError
  else
    d ← init_attrs c lPrms;
    Ok (mkLayer c d ∅ ∅).

Definition forward (l : Layer) (h : list ndarray) (bottom top : list nat)
  : result (Layer * list ndarray) := Ok (l, h).

Definition backward (l : Layer) (h : list ndarray) (bottom top botgrad topgrad : list nat)
  : result (Layer * list ndarray) := Ok (l, h).

Definition setup (l : Layer) (h : list ndarray) (bottom top : list nat)
  : result (Layer * list ndarray) := Ok (l, h).

Definition gradient (l : Layer) : gmap string ndarray := grad_ l.

(** The arrays of a dictionary in the order of its sorted keys. *)
Definition in_sorted_order (d : gmap string ndarray) : list ndarray :=
  omap (fun n => d !! n) (sorted d).

Definition flat_gradient (l : Layer) : result ndarray :=
  np.concatenate (np.ravel <$> in_sorted_order (grad_ l)).

Definition flat_parameters (l : Layer) : result ndarray :=
  if bool_decide (size (prms_ l) ≤ 0) then Ok np.empty0
  else np.concatenate (np.ravel <$> in_sorted_order (prms_ l)).

(** The setter of [flat_parameters]: [k] runs through [value]. *)
Definition set_flat_parameters_loop (value : list Z)
    (st : gmap string ndarray * nat) (n : string) : gmap string ndarray * nat :=
  let '(prms, k) := st in
  match prms !! n with
  | Some a =>
      let kk := k + np.size a in
      (<[n := np.flat_assign a (take (kk - k) (drop k value))]> prms, kk)
  | None => st
  end.

Definition set_flat_parameters (l : Layer) (value : list Z) : Layer :=
  let '(prms, _) := foldl (set_flat_parameters_loop value) (prms_ l, 0) (sorted (prms_ l)) in
  mkLayer (cls l) (attrs l) (grad_ l) prms.

Definition parameters (l : Layer) : gmap string ndarray := prms_ l.

Definition get_mutable_gradient (l : Layer) (gradType : string) : result ndarray :=
  match grad_ l !! gradType with
  | Some a => Ok a
  | None => Raise AssertionError
  end.

End BaseLayer.

(** [t.resize(b.shape, refcheck=False)] for every pair of [zip(bottom, top)];
    the setup of [ReLU] and of [Sigmoid]. *)
Definition resize_tops (h : list ndarray) (bottom top : list nat) : result (list ndarray) :=
  for_each (fun h '(b, t) =>
              vb ← heap.read h b;
              vt ← heap.read h t;
              Ok (heap.write h t (np.resize vt (shape vb))))
           h (zip bottom top).

Module ReLU.

Definition setup (l : Layer) (h : list ndarray) (bottom top : list nat)
  : result (Layer * list ndarray) :=
  h' ← resize_tops h bottom top; Ok (l, h').

Definition forward (l : Layer) (h : list ndarray) (bottom top : list nat)
  : result (Layer * list ndarray) :=
  h' ← for_each (fun h '(b, t) =>
                   vb ← heap.read h b;
                   vt ← heap.read h t;
                   r ← np.assign vt (np.maximum0 vb);
                   Ok (heap.write h t r))
                h (zip bottom top);
  Ok (l, h').

Definition backward (l : Layer) (h : list ndarray) (bottom top botgrad topgrad : list nat)
  : result (Layer * list ndarray) :=
  h' ← for_each (fun h '(b, (t, (db, dt))) =>
                   vt ← heap.read h t;
                   vdb ← heap.read h db;
                   vdt ← heap.read h dt;
                   g ← np.mul vdt (np.gt0 vt);
                   r ← np.assign vdb g;
                   Ok (heap.write h db r))
                h (zip bottom (zip top (zip botgrad topgrad)));
  Ok (l, h').

End ReLU.

Module Sigmoid.

Definition setup (l : Layer) (h : list ndarray) (bottom top : list nat)
  : result (Layer * list ndarray) :=
  h' ← resize_tops h bottom top; Ok (l, h').

Definition map1 (f : Z → Z) (a : ndarray) : ndarray := Array (shape a) (f <$> data a).

Definition forward `{Numerics} (l : Layer) (h : list ndarray) (bottom top : list nat)
  : result (Layer * list ndarray) :=
  h' ← for_each (fun h '(b, t) =>
                   vb ← heap.read h b;
                   vt ← heap.read h t;
                   sigma ← BaseLayer.getattr l "sigma" ≫= py_array;
                   d ← np.mul (map1 Z.opp vb) sigma;
                   let ep := map1 (fun x => np_exp (- Z.max 0 x)) d in
                   let en := map1 (fun x => np_exp (Z.min 0 x)) d in
                   s ← np.add ep en;
                   q ← np.binop np_true_divide ep s;
                   r ← np.assign vt q;
                   Ok (heap.write h t r))
                h (zip bottom top);
  Ok (l, h').

Definition backward (l : Layer) (h : list ndarray) (bottom top botgrad topgrad : list nat)
  : result (Layer * list ndarray) :=
  h' ← for_each (fun h '(b, (t, (db, dt))) =>
                   vt ← heap.read h t;
                   vdb ← heap.read h db;
                   vdt ← heap.read h dt;
                   g1 ← np.mul vdt vt;
                   g2 ← np.mul g1 (map1 (fun x => 1 - x)%Z vt);
                   sigma ← BaseLayer.getattr l "sigma" ≫= py_array;
                   g3 ← np.mul g2 sigma;
                   r ← np.assign vdb g3;
                   Ok (heap.write h db r))
                h (zip bottom (zip top (zip botgrad topgrad)));
  Ok (l, h').

End Sigmoid.

Module InnerProduct.

(** [InnerProduct.__init__]: after the options are stored, [output_shape]
    is replaced by its tuple, or by the one-element tuple holding it. *)
Definition __init__ (lPrms : list (string * pyval)) : result Layer :=
  l ← BaseLayer.__init__ CInnerProduct lPrms;
  v ← BaseLayer.getattr l "output_shape";
  let t := match py_tuple v with Ok t => t | Raise _ => PyTuple [v] end in
  Ok (mkLayer (cls l) (<["output_shape" := t]> (attrs l)) (grad_ l) (prms_ l)).

Definition item (d : gmap string ndarray) (n : string) : result ndarray :=
  from_option_err KeyError (d !! n).

Definition setup (l : Layer) (h : list ndarray) (bottom top : list nat)
  : result (Layer * list ndarray) :=
  match bottom, top with
  | [b], [t] =>
      output_shape ← BaseLayer.getattr l "output_shape" ≫= py_shape;
      vt ← heap.read h t;
      let h' := heap.write h t (np.resize vt output_shape) in
      vb ← heap.read h' b;
      let w := np.zeros (shape vb ++ output_shape) in
      let b_ := np.zeros output_shape in
      let prms := <["b" := b_]> (<["w" := w]> (prms_ l)) in
      let grad := <["b" := np.zeros_like b_]> (<["w" := np.zeros_like w]> (grad_ l)) in
      Ok (mkLayer (cls l) (attrs l) grad prms, h')
  | _, _ => Raise AssertionError
  end.

Definition forward (l : Layer) (h : list ndarray) (bottom top : list nat)
  : result (Layer * list ndarray) :=
  b ← from_option_err IndexError (bottom !! 0);
  vb ← heap.read h b;
  w ← item (prms_ l) "w";
  p ← np.tensordot vb w;
  b_ ← item (prms_ l) "b";
  s ← np.add p b_;
  t ← from_option_err IndexError (top !! 0);
  vt ← heap.read h t;
  r ← np.assign vt s;
  Ok (l, heap.write h t r).

Definition backward (l : Layer) (h : list ndarray) (bottom top botgrad topgrad : list nat)
  : result (Layer * list ndarray) :=
  (* botgrad[0][...] = np.dot(topgrad[0], np.transpose(self.grad_['w'])) *)
  dt ← from_option_err IndexError (topgrad !! 0);
  vdt ← heap.read h dt;
  gw ← item (grad_ l) "w";
  g ← np.dot vdt (np.transpose gw);
  db ← from_option_err IndexError (botgrad !! 0);
  vdb ← heap.read h db;
  r ← np.assign vdb g;
  let h := heap.write h db r in
  (* self.grad_['w'][...] = np.dot(topgrad[0].transpose(), bottom[0]).transpose() *)
  vdt ← heap.read h dt;
  b ← from_option_err IndexError (bottom !! 0);
  vb ← heap.read h b;
  p ← np.dot (np.transpose vdt) vb;
  gw ← item (grad_ l) "w";
  gw' ← np.assign gw (np.transpose p);
  let grad := <["w" := gw']> (grad_ l) in
  (* self.grad_['b'][...] = np.sum(topgrad[0], axis=0) *)
  vdt ← heap.read h dt;
  s ← np.sum0 vdt;
  gb ← item grad "b";
  gb' ← np.assign gb s;
  Ok (mkLayer (cls l) (attrs l) (<["b" := gb']> grad) (prms_ l), h).

End InnerProduct.

Module SoftMax.

(** After the assertion, [bottom[0].output_shape] asks an array for an
    attribute it does not have. *)
Definition setup (l : Layer) (h : list ndarray) (bottom top : list nat)
  : result (Layer * list ndarray) :=
  match bottom, top with
  | [_], [_] => Raise AttributeError
  | _, _ => Raise AssertionError
  end.

(** [bottom.shape]: [bottom] is a list. *)
Definition forward (l : Layer) (h : list ndarray) (bottom top : list nat)
  : result (Layer * list ndarray) := Raise AttributeError.

Definition backward (l : Layer) (h : list ndarray) (bottom top botgrad topgrad : list nat)
  : result (Layer * list ndarray) := Ok (l, h).

End SoftMax.

(** Construction and method dispatch on the class of the instance. *)
Definition new_layer (c : LayerClass) (lPrms : list (string * pyval)) : result Layer :=
  match c with
  | CInnerProduct => InnerProduct.__init__ lPrms
  | _ => BaseLayer.__init__ c lPrms
  end.

Definition layer_setup (l : Layer) (h : list ndarray) (bottom top : list nat)
  : result (Layer * list ndarray) :=
  match cls l with
  | CBaseLayer => BaseLayer.setup l h bottom top
  | CReLU => ReLU.setup l h bottom top
  | CSigmoid => Sigmoid.setup l h bottom top
  | CInnerProduct => InnerProduct.setup l h bottom top
  | CSoftMax => SoftMax.setup l h bottom top
  end.

Definition layer_forward `{Numerics} (l : Layer) (h : list ndarray) (bottom top : list nat)
  : result (Layer * list ndarray) :=
  match cls l with
  | CBaseLayer => BaseLayer.forward l h bottom top
  | CReLU => ReLU.forward l h bottom top
  | CSigmoid => Sigmoid.forward l h bottom top
  | CInnerProduct => InnerProduct.forward l h bottom top
  | CSoftMax => SoftMax.forward l h bottom top
  end.

Definition layer_backward (l : Layer) (h : list ndarray) (bottom top botgrad topgrad : list nat)
  : result (Layer * list ndarray) :=
  match cls l with
  | CBaseLayer => BaseLayer.backward l h bottom top botgrad topgrad
  | CReLU => ReLU.backward l h bottom top botgrad topgrad
  | CSigmoid => Sigmoid.backward l h bottom top botgrad topgrad
  | CInnerProduct => InnerProduct.backward l h bottom top botgrad topgrad
  | CSoftMax => SoftMax.backward l h bottom top botgrad topgrad
  end.

(** ** network.py *)

(** An entry of [self._layers]; the layer is the address of its object. *)
Record LayerEntry : Type := mkEntry {
  layer_name : string;
  layer_instance : nat;
  input_blobs : list string;
  output_blobs : list string
}.

Inductive method : Type := MSetup | MForward | MBackward.

#[global] Instance method_eq_dec : EqDecision method.
Proof. solve_decision. Defined.

(** A network together with the objects it reaches: [arrays] holds the
    blob and diff arrays, [objects] the layer instances. [calls] is the log
    of the layer methods invoked so far, oldest first. *)
Record Network : Type := mkNetwork {
  arrays : list ndarray;
  objects : list Layer;
  _layers : list LayerEntry;
  _blobs : gmap string nat;
  _diffs : gmap string nat;
  _blob_history : list (gmap string nat);
  calls : list (method * nat)
}.

(** The single name or the list of names given to [addLayer]. *)
Inductive names : Type :=
  | OneName (s : string)
  | NameList (l : list string).

Module Network.

Definition __init__ : Network := mkNetwork [] [] [] ∅ ∅ [] [].

(** A layer instance created by the caller becomes an object. *)
Definition new_object (net : Network) (l : Layer) : Network * nat :=
  (mkNetwork (arrays net) (objects net ++ [l]) (_layers net) (_blobs net) (_diffs net)
     (_blob_history net) (calls net), length (objects net)).

Definition lookup (d : gmap string nat) (n : string) : result nat :=
  from_option_err KeyError (d !! n).

Definition _get_blobs (net : Network) (ns : list string) : result (list nat) :=
  mapM (M := result) (lookup (_blobs net)) ns.

Definition _get_diffs (net : Network) (ns : list string) : result (list nat) :=
  mapM (M := result) (lookup (_diffs net)) ns.

Definition as_list (x : names) : list string :=
  match x with
  | OneName s => [s]
  | NameList l => l
  end.

Definition addLayer (net : Network) (layer_name : string) (layer_instance : nat)
    (input_blobs output_blobs : names) : Network :=
  mkNetwork (arrays net) (objects net)
    (_layers net ++ [mkEntry layer_name layer_instance (as_list input_blobs) (as_list output_blobs)])
    (_blobs net) (_diffs net) (_blob_history net) (calls net).

Definition the_layer (net : Network) (e : LayerEntry) : result Layer :=
  from_option_err DanglingAddress (objects net !! layer_instance e).

(** The state after a layer method returned: the layer object and the
    arrays it was handed may have changed in place. *)
Definition returned (net : Network) (m : method) (e : LayerEntry)
    (r : Layer * list ndarray) : Network :=
  mkNetwork r.2 (<[layer_instance e := r.1]> (objects net)) (_layers net) (_blobs net)
    (_diffs net) (_blob_history net) (calls net ++ [(m, layer_instance e)]).

(** [self._blobs[n] = 0*kwargs[n]] *)
Definition seed_blob (net : Network) (kv : string * ndarray) : Network :=
  let '(h, a) := heap.alloc (arrays net) (np.scale 0 kv.2) in
  mkNetwork h (objects net) (_layers net) (<[kv.1 := a]> (_blobs net)) (_diffs net)
    (_blob_history net) (calls net).

(** [if not s in self._blobs: self._blobs[s] = np.empty((0,))] *)
Definition placeholder (net : Network) (s : string) : Network :=
  match _blobs net !! s with
  | Some _ => net
  | None =>
      let '(h, a) := heap.alloc (arrays net) np.empty0 in
      mkNetwork h (objects net) (_layers net) (<[s := a]> (_blobs net)) (_diffs net)
        (_blob_history net) (calls net)
  end.

Definition setup_layer (net : Network) (e : LayerEntry) : result Network :=
  let net := foldl placeholder net (input_blobs e ++ output_blobs e) in
  l ← the_layer net e;
  bottom ← _get_blobs net (input_blobs e);
  top ← _get_blobs net (output_blobs e);
  r ← layer_setup l (arrays net) bottom top;
  Ok (returned net MSetup e r).

(** [self._diffs[n] = 0*self._blobs[n]] *)
Definition make_diff (net : Network) (na : string * nat) : result Network :=
  v ← heap.read (arrays net) na.2;
  let '(h, a) := heap.alloc (arrays net) (np.scale 0 v) in
  Ok (mkNetwork h (objects net) (_layers net) (_blobs net) (<[na.1 := a]> (_diffs net))
        (_blob_history net) (calls net)).

Definition setup (net : Network) (kwargs : list (string * ndarray)) : result Network :=
  let net := foldl seed_blob net kwargs in
  net ← for_each setup_layer net (_layers net);
  for_each make_diff net (map_to_list (_blobs net)).

(** [d[n][...] = v] for the array named [n] in the dictionary [d] *)
Definition overwrite (d : gmap string nat) (h : list ndarray) (kv : string * ndarray)
  : result (list ndarray) :=
  a ← lookup d kv.1;
  x ← heap.read h a;
  r ← np.assign x kv.2;
  Ok (heap.write h a r).

Definition with_arrays (net : Network) (h : list ndarray) : Network :=
  mkNetwork h (objects net) (_layers net) (_blobs net) (_diffs net) (_blob_history net)
    (calls net).

Definition forward_layer `{Numerics} (net : Network) (e : LayerEntry) : result Network :=
  l ← the_layer net e;
  bottom ← _get_blobs net (input_blobs e);
  top ← _get_blobs net (output_blobs e);
  r ← layer_forward l (arrays net) bottom top;
  Ok (returned net MForward e r).

Definition forward1 `{Numerics} (net : Network) (kwargs : list (string * ndarray))
  : result Network :=
  h ← for_each (overwrite (_blobs net)) (arrays net) kwargs;
  for_each forward_layer (with_arrays net h) (_layers net).

Definition backward_layer (net : Network) (e : LayerEntry) : result Network :=
  l ← the_layer net e;
  bottom ← _get_blobs net (input_blobs e);
  top ← _get_blobs net (output_blobs e);
  botgrad ← _get_diffs net (input_blobs e);
  topgrad ← _get_diffs net (output_blobs e);
  r ← layer_backward l (arrays net) bottom top botgrad topgrad;
  Ok (returned net MBackward e r).

Definition backward1 (net : Network) (kwargs : list (string * ndarray)) : result Network :=
  h ← for_each (overwrite (_diffs net)) (arrays net) kwargs;
  for_each backward_layer (with_arrays net h) (rev (_layers net)).

Definition blobs (net : Network) : gmap string nat := _blobs net.
Definition diffs (net : Network) : gmap string nat := _diffs net.

(** The aggregating accessors. In the branch of a repeated name the
    assertion [set(g.keys()) == set(m.keys())] is evaluated before the loop
    [for m in g] that alone binds the local variable [m]: [g.keys()] is
    computed, then reading [m] raises UnboundLocalError. In the flat variants
    [g] is an array and [g.keys()] itself raises AttributeError. Nothing
    below the assertion is reached. *)
Definition gradient_step (net : Network) (r : gmap string (gmap string ndarray))
    (e : LayerEntry) : result (gmap string (gmap string ndarray)) :=
  l ← the_layer net e;
  match r !! layer_name e with
  | None => Ok (<[layer_name e := BaseLayer.gradient l]> r)
  | Some _ => let g := BaseLayer.gradient l in Raise UnboundLocalError
  end.

Definition gradient (net : Network) : result (gmap string (gmap string ndarray)) :=
  for_each (gradient_step net) ∅ (_layers net).

Definition flat_gradient_step (net : Network) (r : gmap string ndarray) (e : LayerEntry)
  : result (gmap string ndarray) :=
  l ← the_layer net e;
  match r !! layer_name e with
  | None => g ← BaseLayer.flat_gradient l; Ok (<[layer_name e := g]> r)
  | Some _ => g ← BaseLayer.flat_gradient l; Raise AttributeError
  end.

Definition flat_gradient (net : Network) : result ndarray :=
  r ← for_each (flat_gradient_step net) ∅ (_layers net);
  np.concatenate (BaseLayer.in_sorted_order r).

Definition parameters_step (net : Network) (r : gmap string (gmap string ndarray))
    (e : LayerEntry) : result (gmap string (gmap string ndarray)) :=
  l ← the_layer net e;
  match r !! layer_name e with
  | None => Ok (<[layer_name e := BaseLayer.parameters l]> r)
  | Some _ => let g := BaseLayer.parameters l in Raise UnboundLocalError
  end.

Definition parameters (net : Network) : result (gmap string (gmap string ndarray)) :=
  for_each (parameters_step net) ∅ (_layers net).

Definition flat_parameters_step (net : Network) (r : gmap string ndarray) (e : LayerEntry)
  : result (gmap string ndarray) :=
  l ← the_layer net e;
  match r !! layer_name e with
  | None => g ← BaseLayer.flat_parameters l; Ok (<[layer_name e := g]> r)
  | Some _ => g ← BaseLayer.flat_parameters l; Raise AttributeError
  end.

Definition flat_parameters (net : Network) : result ndarray :=
  r ← for_each (flat_parameters_step net) ∅ (_layers net);
  np.concatenate (BaseLayer.in_sorted_order r).

Definition set_flat_parameters (net : Network) (value : list Z) : Network := net.

(** [copy.deepcopy(self._blobs)]: every array is copied once; [memo] maps
    the arrays already copied to their copies. *)
Definition deepcopy_item (st : list ndarray * gmap nat nat * gmap string nat)
    (na : string * nat) : result (list ndarray * gmap nat nat * gmap string nat) :=
  let '(h, memo, d) := st in
  match memo !! na.2 with
  | Some a' => Ok (h, memo, <[na.1 := a']> d)
  | None =>
      v ← heap.read h na.2;
      let '(h', a') := heap.alloc h v in
      Ok (h', <[na.2 := a']> memo, <[na.1 := a']> d)
  end.

Definition deepcopy (h : list ndarray) (d : gmap string nat)
  : result (list ndarray * gmap string nat) :=
  st ← for_each deepcopy_item (h, ∅, ∅) (map_to_list d);
  Ok (st.1.1, st.2).

Definition pushState (net : Network) : result Network :=
  r ← deepcopy (arrays net) (_blobs net);
  Ok (mkNetwork r.1 (objects net) (_layers net) (_blobs net) (_diffs net)
        (_blob_history net ++ [r.2]) (calls net)).

(** [self._blobs = self._blob_history.pop()] *)
Definition popState (net : Network) : result Network :=
  match last (_blob_history net) with
  | None => Raise IndexError
  | Some d =>
      Ok (mkNetwork (arrays net) (objects net) (_layers net) d (_diffs net)
            (removelast (_blob_history net)) (calls net))
  end.

(** The value of the blob, or of the diff, of a given name. *)
Definition blob (net : Network) (n : string) : option ndarray :=
  a ← _blobs net !! n; arrays net !! a.

Definition diff (net : Network) (n : string) : option ndarray :=
  a ← _diffs net !! n; arrays net !! a.

End Network.

(** ** Notions used in the statements *)

#[global] Instance wf_dec a : Decision (np.wf a).
Proof. unfold np.wf. apply _. Defined.

Definition or_else {A} (r : result A) (a : A) : A :=
  match r with Ok x => x | Raise _ => a end.

(** *** Parameters in sorted order *)

(** The number of elements of all the arrays of a dictionary, and of those
    whose name comes strictly before [n] in lexicographic order. *)
Definition total_size (d : gmap string ndarray) : nat :=
  sum_list ((fun ka => np.size ka.2) <$> map_to_list d).



(** The pairs of a dictionary for a list of keys. *)
Definition pairs_of (d : gmap string ndarray) (ks : list string) : list (string * ndarray) :=
  omap (fun k => pair k <$> d !! k) ks.

(** *** Keywords of a constructor *)

(** The names a constructor accepts as keywords: the data attributes and
    functions found on the class, whether declared in its body, in
    [BaseLayer] or in [object]. *)
Definition accepted (c : LayerClass) (n : string) : bool :=
  match class_lookup c n with
  | Some (Data _) | Some Function => true
  | _ => false
  end.

(** Every name bound in an instance dictionary is an accepted one. *)
Definition bound_names_accepted (c : LayerClass) (d : gmap string pyval) : Prop :=
  ∀ n, is_Some (d !! n) → accepted c n = true.

Definition bind_option (d : gmap string pyval) (kv : string * pyval) : gmap string pyval :=
  <[kv.1 := kv.2]> d.


(** *** States of a network *)

(** Every entry of the network refers to a layer object. *)
Definition layers_alive (net : Network) : Prop :=
  Forall (fun e => is_Some (objects net !! layer_instance e)) (_layers net).

(** Every blob name refers to an array object. *)
Definition blobs_alive (net : Network) : Prop :=
  map_Forall (fun _ a => a < length (arrays net)) (_blobs net).

(** The array is the blob of some name. *)
Definition is_blob (net : Network) (a : nat) : Prop :=
  ∃ n, _blobs net !! n = Some a.

(** No two names of a dictionary share an array. *)
Definition injective (d : gmap string nat) : Prop :=
  ∀ n1 n2 a, d !! n1 = Some a → d !! n2 = Some a → n1 = n2.

(** The blob dictionary only grows during [setup]. *)
Definition grows (net net' : Network) : Prop :=
  _layers net' = _layers net ∧ ∀ n, is_Some (_blobs net !! n) → is_Some (_blobs net' !! n).

(** The arrays of [h'] are those of [h] but for the addresses in [top]. *)
Definition writes_only (top : list nat) (h h' : list ndarray) : Prop :=
  length h' = length h ∧ ∀ a, a ∉ top → h' !! a = h !! a.

(** Same dictionaries, history and layer objects; arrays changed only
    where they are blobs. *)
Definition blobs_rewritten (net net' : Network) : Prop :=
  _blobs net' = _blobs net ∧ _diffs net' = _diffs net ∧
  _blob_history net' = _blob_history net ∧ objects net' = objects net ∧
  _layers net' = _layers net ∧ length (arrays net') = length (arrays net) ∧
  ∀ a, ¬ is_blob net a → arrays net' !! a = arrays net !! a.

(** ** Sample objects *)

(** Integer stand-ins for the exponential and the true division, to run
    the samples. *)
Definition sample_numerics : Numerics :=
  {| np_exp := fun _ => 1%Z; np_true_divide := Z.div |}.

(** A rectified-linear unit, and four arrays for it: input, output,
    gradient of the input, upstream gradient. *)
Definition sample_relu : Layer := mkLayer CReLU ∅ ∅ ∅.

Definition relu_heap : list ndarray :=
  [Array [3] [-1; 0; 2]%Z; np.empty0; np.zeros [3]; Array [3] [5; 6; 7]%Z].

(** An affine layer as [setup] leaves it on an input of shape (2,) with
    [output_shape = (1,)]. *)
Definition sample_affine : Layer :=
  mkLayer CInnerProduct ∅ ∅ (<["w" := np.zeros [2; 1]]> (<["b" := np.zeros [1]]> ∅)).

(** A layer that holds the given parameters and gradients. *)
Definition layer_holding (prms grad : gmap string ndarray) : Layer :=
  mkLayer CBaseLayer ∅ grad prms.

Definition sample_w1 : Layer :=
  layer_holding {["w" := np.vector [1; 2]%Z]} {["w" := np.vector [0; 0]%Z]}.
Definition sample_w2 : Layer :=
  layer_holding {["w" := np.vector [10; 20]%Z]} {["w" := np.vector [0; 0]%Z]}.
Definition sample_b : Layer :=
  layer_holding {["b" := np.vector [5]%Z]} {["b" := np.vector [0]%Z]}.

(** The network [x -> l1 -> y -> l2 -> z] with the two layers registered
    under the given names. *)
Definition chain2 (name1 name2 : string) (l1 l2 : Layer) : Network :=
  let '(net, a1) := Network.new_object Network.__init__ l1 in
  let '(net, a2) := Network.new_object net l2 in
  let net := Network.addLayer net name1 a1 (OneName "x") (OneName "y") in
  Network.addLayer net name2 a2 (OneName "y") (OneName "z").

(** The chain [x -> A -> y -> B -> z -> C -> w] of three rectified-linear
    units, registered in this order; the network it is after [setup]; after
    a backward pass; after [pushState]; after [pushState] and a forward
    pass. *)
Definition chain3 : Network :=
  let '(net, a) := Network.new_object Network.__init__ sample_relu in
  let '(net, b) := Network.new_object net sample_relu in
  let '(net, c) := Network.new_object net sample_relu in
  let net := Network.addLayer net "A" a (OneName "x") (OneName "y") in
  let net := Network.addLayer net "B" b (OneName "y") (OneName "z") in
  Network.addLayer net "C" c (NameList ["z"]) (NameList ["w"]).

Definition chain3_ready : Network :=
  or_else (Network.setup chain3 [("x", np.vector [1; -2; 3]%Z)]) chain3.

Definition chain3_back : Network :=
  or_else (Network.backward1 chain3_ready [("w", np.vector [1; 1; 1]%Z)]) chain3.

Definition chain3_pushed : Network :=
  or_else (Network.pushState chain3_ready) chain3.

Definition chain3_forward : Network :=
  or_else (Network.forward1 (H := sample_numerics) chain3_pushed
             [("x", np.vector [5; -6; 7]%Z)]) chain3.

(** An affine layer with one input and one output unit: the arrays are the
    input [[2]], the output, the gradient of the input and the upstream
    gradient [3]; after [setup] the weight is set to 5 and the bias to 0. *)
Definition affine_heap : list ndarray :=
  [Array [1; 1] [2%Z]; np.empty0; np.zeros [1; 1]; Array [1] [3%Z]].

Definition affine_ready : result (Layer * list ndarray) :=
  l ← new_layer CInnerProduct [("output_shape", PyNum 1)];
  r ← InnerProduct.setup l affine_heap [0] [1];
  Ok (BaseLayer.set_flat_parameters r.1 [0; 5]%Z, r.2).

(** ** Further notions and samples *)


(** An affine layer with four inputs (two rows of two) and one output. *)
Definition sample_x22 : ndarray := Array [2; 2] [1; 1; 1; 1]%Z.
Definition sample_w221 : ndarray := Array [2; 2; 1] [1; 2; 3; 4]%Z.
Definition sample_b1 : ndarray := Array [1] [5]%Z.
Definition sample_affine22 : Layer :=
  mkLayer CInnerProduct ∅ ∅ (<["w" := sample_w221]> (<["b" := sample_b1]> ∅)).
Definition affine22_heap : list ndarray := [sample_x22; Array [1] [0]%Z].

(** The affine layer after [setup] on an input of shape (2, 2) with
    [output_shape = (1,)], and its arrays: input, output, gradient of the
    input, upstream gradient. *)
Definition affine221_heap : list ndarray :=
  [sample_x22; np.empty0; np.zeros [2; 2]; Array [1] [3%Z]].

Definition affine221_ready : Layer * list ndarray :=
  or_else (l ← new_layer CInnerProduct [("output_shape", PyNum 1)];
           InnerProduct.setup l affine221_heap [0] [1])
          (sample_affine, affine221_heap).



(** The array is the diff of some name. *)
Definition is_diff (net : Network) (a : nat) : Prop :=
  ∃ n, _diffs net !! n = Some a.

(** No array is both a blob and a diff. *)
Definition separate_storage (net : Network) : Prop :=
  map_Forall (fun _ a => map_Forall (fun _ b => a ≠ b) (_blobs net)) (_diffs net).

#[global] Instance separate_storage_dec net : Decision (separate_storage net).
Proof. unfold separate_storage. apply _. Defined.

(** Same dictionaries and history; arrays changed only where they are
    diffs; the layer objects keep class, options and parameters. *)
Definition diffs_rewritten (net net' : Network) : Prop :=
  _blobs net' = _blobs net ∧ _diffs net' = _diffs net ∧
  _blob_history net' = _blob_history net ∧ _layers net' = _layers net ∧
  length (arrays net') = length (arrays net) ∧
  length (objects net') = length (objects net) ∧
  (∀ a, ¬ is_diff net a → arrays net' !! a = arrays net !! a) ∧
  (∀ i l, objects net !! i = Some l →
     ∃ l', objects net' !! i = Some l' ∧
           cls l' = cls l ∧ attrs l' = attrs l ∧ prms_ l' = prms_ l).


(** The chain after a second [pushState] and a second forward pass. *)
Definition chain3_pushed2 : Network :=
  or_else (Network.pushState chain3_forward) chain3.

Definition chain3_forward2 : Network :=
  or_else (Network.forward1 (H := sample_numerics) chain3_pushed2
             [("x", np.vector [-8; 9; 0]%Z)]) chain3.

(** The gradients of a layer are named and shaped like its parameters, and
    all of them are arrays with as many elements as their shape says. *)
Definition consistent (l : Layer) : Prop :=
  (∀ n, shape <$> grad_ l !! n = shape <$> prms_ l !! n) ∧
  map_Forall (fun _ a => np.wf a) (prms_ l) ∧
  map_Forall (fun _ a => np.wf a) (grad_ l).

(** * Properties *)

(** ** numpy operations on small arrays *)

Example dot_matrix_matrix :
  np.dot (Array [2; 2] [1; 2; 3; 4]%Z) (Array [2; 2] [5; 6; 7; 8]%Z)
    = Ok (Array [2; 2] [19; 22; 43; 50]%Z).
Proof. reflexivity. Qed.

Example dot_vector_matrix :
  np.dot (Array [2] [1; 2]%Z) (Array [2; 3] [1; 2; 3; 4; 5; 6]%Z)
    = Ok (Array [3] [9; 12; 15]%Z).
Proof. reflexivity. Qed.

Example dot_shape_mismatch :
  np.dot (Array [2] [1; 2]%Z) (Array [3; 1] [1; 2; 3]%Z) = Raise ValueError.
Proof. reflexivity. Qed.

Example transpose_matrix :
  np.transpose (Array [2; 3] [1; 2; 3; 4; 5; 6]%Z) = Array [3; 2] [1; 4; 2; 5; 3; 6]%Z.
Proof. reflexivity. Qed.

Example assign_row :
  np.assign (Array [2; 3] [1; 2; 3; 4; 5; 6]%Z) (Array [1; 3] [7; 8; 9]%Z)
    = Ok (Array [2; 3] [7; 8; 9; 7; 8; 9]%Z).
Proof. reflexivity. Qed.

Example assign_leading_ones :
  np.assign (Array [3] [1; 2; 3]%Z) (Array [1; 1; 3] [7; 8; 9]%Z)
    = Ok (Array [3] [7; 8; 9]%Z).
Proof. reflexivity. Qed.

Example assign_scalar :
  np.assign (Array [2; 2] [1; 2; 3; 4]%Z) (np.scalar 5) = Ok (Array [2; 2] [5; 5; 5; 5]%Z).
Proof. reflexivity. Qed.

Example assign_shape_mismatch :
  np.assign (Array [3] [1; 2; 3]%Z) (Array [2] [7; 8]%Z) = Raise ValueError.
Proof. reflexivity. Qed.

Example mul_broadcast :
  np.mul (Array [2; 1] [1; 2]%Z) (Array [3] [7; 8; 9]%Z)
    = Ok (Array [2; 3] [7; 8; 9; 14; 16; 18]%Z).
Proof. reflexivity. Qed.

Example sum0_matrix :
  np.sum0 (Array [2; 3] [1; 2; 3; 4; 5; 6]%Z) = Ok (Array [3] [5; 7; 9]%Z).
Proof. reflexivity. Qed.

Example tensordot_matrix :
  np.tensordot (Array [1; 2] [1; 2]%Z) (Array [1; 2; 3] [1; 2; 3; 4; 5; 6]%Z)
    = Ok (Array [3] [9; 12; 15]%Z).
Proof. reflexivity. Qed.

Example tensordot_vector :
  np.tensordot (Array [2] [1; 2]%Z) (Array [2; 3] [1; 2; 3; 4; 5; 6]%Z) = Raise IndexError.
Proof. reflexivity. Qed.

Example flat_assign_cycles :
  np.flat_assign (Array [2; 2] [1; 2; 3; 4]%Z) [7; 8; 9]%Z = Array [2; 2] [7; 8; 9; 7]%Z.
Proof. reflexivity. Qed.

(** ** The error monad *)


Lemma bind_Ok {A B} (r : result A) (f : A → result B) b :
  r ≫= f = Ok b ↔ ∃ a, r = Ok a ∧ f a = Ok b.
Proof.
  destruct r; simpl; split.
  - eauto.
  - by intros (? & [= <-] & ?).
  - done.
  - by intros (? & [=] & ?).
Qed.

(** An invariant of the state is kept by a loop whose body keeps it. *)
Lemma for_each_inv {S A} (P : S → Prop) (f : S → A → result S) l s s' :
  (∀ s x s', x ∈ l → P s → f s x = Ok s' → P s') →
  P s → for_each f s l = Ok s' → P s'.
Proof.
  revert s. induction l as [|x l IH]; intros s Hf Hs; simpl.
  - by intros [= <-].
  - destruct (f s x) as [s1|] eqn:E; simpl; [|done].
    apply IH; [|eapply Hf; eauto; left].
    intros ???? ; apply Hf; by right.
Qed.

(** ** Arrays *)

Section arrays.
Implicit Types (s : list nat) (a : ndarray) (l : list Z).

Lemma seq_blocks n c d k :
  seq k d ≫= (fun i => seq ((c + i) * n) n) = seq ((c + k) * n) (d * n).
Proof.
  revert k. induction d as [|d IH]; intros k; simpl; [done|].
  rewrite IH, seq_app. do 2 f_equal. lia.
Qed.

Lemma fmap_bind_list {A B C} (f : B → C) (g : A → list B) (l : list A) :
  f <$> (l ≫= g) = l ≫= (fun x => f <$> g x).
Proof.
  induction l as [|x l IH]; [done|].
  rewrite !bind_cons, fmap_app, IH. done.
Qed.

(** The multi-indices of a shape are numbered consecutively in the buffer. *)
Lemma ravel_indices s acc :
  np.ravel_index acc s <$> np.indices s = seq (acc * np.size_of s) (np.size_of s).
Proof.
  revert acc. induction s as [|d s IH]; intros acc; simpl.
  - f_equal. lia.
  - change (foldr Nat.mul 1 s) with (np.size_of s).
    replace (acc * (d * np.size_of s)) with ((acc * d + 0) * np.size_of s) by lia.
    rewrite <- (seq_blocks (np.size_of s) (acc * d) d 0).
    rewrite fmap_bind_list. apply list_bind_ext; [|done].
    intros i. rewrite <- list_fmap_compose. simpl.
    rewrite <- IH. done.
Qed.



Lemma dims_compat_refl s : np.dims_compat s s = true.
Proof.
  induction s as [|d s IH]; simpl; [done|].
  rewrite IH. unfold np.dim_compat. by rewrite bool_decide_eq_true_2.
Qed.


Lemma strip_ones_0 s : np.strip_ones 0 s = s.
Proof. by destruct s. Qed.





Lemma wf_zeros s : np.wf (np.zeros s).
Proof. unfold np.wf, np.zeros, np.size. simpl. apply length_replicate. Qed.

Lemma wf_scale k a : np.wf a → np.wf (np.scale k a).
Proof. unfold np.wf, np.scale, np.size. simpl. by rewrite length_map. Qed.

Lemma wf_resize a s : np.wf (np.resize a s).
Proof.
  unfold np.wf, np.resize, np.size. simpl.
  rewrite length_take, length_app, length_replicate. lia.
Qed.



Lemma wf_empty0 : np.wf np.empty0.
Proof. done. Qed.

End arrays.

(** ** The heap *)

Lemma read_Some h a v : h !! a = Some v → heap.read h a = Ok v.
Proof. unfold heap.read. by intros ->. Qed.

Lemma read_Ok h a v : heap.read h a = Ok v → h !! a = Some v.
Proof. unfold heap.read. destruct (h !! a); simpl; congruence. Qed.

Lemma read_write_eq h a v : a < length h → heap.read (heap.write h a v) a = Ok v.
Proof. intros. apply read_Some. by apply list_lookup_insert_eq. Qed.

Lemma lookup_write_ne h a a' v : a ≠ a' → heap.write h a v !! a' = h !! a'.
Proof. intros. by apply list_lookup_insert_ne. Qed.

Lemma length_write h a v : length (heap.write h a v) = length h.
Proof. apply length_insert. Qed.

(** ** ReLU *)




(** On the sample: the output is [0; 0; 2] and the gradient [0; 0; 7]. *)
Example ReLU_sample :
  (r ← ReLU.setup sample_relu relu_heap [0] [1];
   r ← ReLU.forward r.1 r.2 [0] [1];
   r' ← ReLU.backward r.1 r.2 [0] [1] [2] [3];
   Ok (r.2 !! 1, r'.2 !! 2))
    = Ok (Some (Array [3] [0; 0; 2]%Z), Some (Array [3] [0; 0; 7]%Z)).
Proof. reflexivity. Qed.

(** ** Sorted keys *)

Section sorted_keys.
Context {A : Type}.
Implicit Types (d : gmap string A) (n : string).

Lemma sorted_Permutation d : sorted d ≡ₚ (map_to_list d).*1.
Proof. apply merge_sort_Permutation. Qed.


Lemma elem_of_keys d n : n ∈ (map_to_list d).*1 ↔ is_Some (d !! n).
Proof.
  rewrite list_elem_of_fmap. split.
  - intros ([k a] & -> & H%elem_of_map_to_list). by exists a.
  - intros [a Ha]. exists (n, a). split; [done|]. by apply elem_of_map_to_list.
Qed.

Lemma elem_of_sorted d n : n ∈ sorted d ↔ is_Some (d !! n).
Proof. by rewrite sorted_Permutation, elem_of_keys. Qed.

Lemma NoDup_sorted d : NoDup (sorted d).
Proof. rewrite sorted_Permutation. apply NoDup_fst_map_to_list. Qed.

(** [sorted] depends on the keys only. *)
Lemma sorted_ext d d' :
  (∀ n, is_Some (d !! n) ↔ is_Some (d' !! n)) → sorted d = sorted d'.
Proof.
  intros H. apply (Sorted_unique String.le).
  - apply (Sorted_merge_sort _).
  - apply (Sorted_merge_sort _).
  - apply NoDup_Permutation; [apply NoDup_sorted..|].
    intros n. by rewrite !elem_of_sorted.
Qed.

Lemma sorted_empty_iff d : sorted d = [] ↔ d = ∅.
Proof.
  split.
  - intros H. apply map_empty. intros n. apply eq_None_not_Some.
    rewrite <- elem_of_sorted, H. apply not_elem_of_nil.
  - intros ->. done.
Qed.
End sorted_keys.

(** ** The flat view of the parameters *)



Section setter.
Variable value : list Z.


End setter.

Section setter_keys.
Variable value : list Z.


End setter_keys.

(** *** The arrays of a dictionary, by sorted key *)

Lemma elem_of_pairs_of d ks k a : (k, a) ∈ pairs_of d ks ↔ k ∈ ks ∧ d !! k = Some a.
Proof.
  unfold pairs_of. rewrite list_elem_of_omap. split.
  - intros (k' & Hk' & E). destruct (d !! k') eqn:E'; simplify_eq/=. done.
  - intros [Hk E]. exists k. by rewrite E.
Qed.

Lemma NoDup_pairs_of d ks : NoDup ks → NoDup (pairs_of d ks).
Proof.
  induction 1 as [|k ks Hk Hnd IH]; [constructor|].
  unfold pairs_of. csimpl. destruct (d !! k) as [a|] eqn:E; csimpl; [|done].
  constructor; [|done]. fold (pairs_of d ks). rewrite elem_of_pairs_of. tauto.
Qed.

Lemma pairs_of_sorted d : pairs_of d (sorted d) ≡ₚ map_to_list d.
Proof.
  apply NoDup_Permutation.
  - apply NoDup_pairs_of, NoDup_sorted.
  - apply NoDup_map_to_list.
  - intros [k a]. rewrite elem_of_pairs_of, elem_of_map_to_list, elem_of_sorted.
    split; [tauto|]. intros H. split; [by exists a|done].
Qed.

Lemma snd_pairs_of d ks : (pairs_of d ks).*2 = omap (fun k => d !! k) ks.
Proof.
  induction ks as [|k ks IH]; [done|]. unfold pairs_of in *. csimpl.
  destruct (d !! k); csimpl; by rewrite IH.
Qed.

Lemma total_size_sorted d :
  total_size d = sum_list (np.size <$> BaseLayer.in_sorted_order d).
Proof.
  unfold total_size, BaseLayer.in_sorted_order.
  rewrite <- (pairs_of_sorted d), <- snd_pairs_of.
  by rewrite <- list_fmap_compose.
Qed.









(** ** Construction of a layer *)

Section construction.
Variable c : LayerClass.

(** While only accepted names are bound, a keyword is stored when its name
    is accepted and refused otherwise. *)
Lemma init_step_accepted d n v :
  bound_names_accepted c d → accepted c n = true → BaseLayer.init_step c d (n, v) = Ok (<[n := v]> d).
Proof.
  intros Hd. unfold accepted, BaseLayer.init_step, BaseLayer.hasattr, BaseLayer.setattr.
  destruct (class_lookup c n) as [[| |[]|]|]; done.
Qed.

Lemma init_step_refused d n v :
  bound_names_accepted c d → accepted c n = false → is_Raise (BaseLayer.init_step c d (n, v)).
Proof.
  intros Hd Hn. specialize (Hd n). revert Hd Hn.
  unfold accepted, BaseLayer.init_step, BaseLayer.hasattr, BaseLayer.setattr.
  destruct (class_lookup c n) as [[| |[]|]|]; try done.
  intros Hd _. case_bool_decide as H; [|done]. by specialize (Hd H).
Qed.

Lemma bound_names_insert d n v :
  bound_names_accepted c d → accepted c n = true → bound_names_accepted c (<[n := v]> d).
Proof.
  intros Hd Hn n'. rewrite lookup_insert_is_Some'. intros [<-|?]; auto.
Qed.

Lemma init_attrs_from d lPrms :
  bound_names_accepted c d →
  match for_each (BaseLayer.init_step c) d lPrms with
  | Ok d' => Forall (fun n => accepted c n = true) lPrms.*1 ∧ d' = foldl bind_option d lPrms
  | Raise _ => ¬ Forall (fun n => accepted c n = true) lPrms.*1
  end.
Proof.
  revert d. induction lPrms as [|[n v] kw IH]; intros d Hd.
  - split; [constructor|done].
  - rewrite fmap_cons. cbn [for_each fst]. destruct (accepted c n) eqn:Hn.
    + rewrite (init_step_accepted d n v Hd Hn). simpl.
      specialize (IH (<[n := v]> d) (bound_names_insert d n v Hd Hn)).
      destruct (for_each (BaseLayer.init_step c) (<[n:=v]> d) kw).
      * destruct IH as [IH1 IH2]. split; [by constructor|done].
      * intros H. apply IH. by inversion H.
    + pose proof (init_step_refused d n v Hd Hn) as Hr.
      destruct (BaseLayer.init_step c d (n, v)); [done|]. simpl.
      intros H. inversion H. congruence.
Qed.

End construction.



Lemma self_not_accepted c : accepted c "self" = false.
Proof. by destruct c. Qed.

Lemma BaseLayer_init_spec c lPrms :
  match BaseLayer.__init__ c lPrms with
  | Ok l =>
      Forall (fun n => accepted c n = true) lPrms.*1 ∧
      l = mkLayer c (foldl bind_option ∅ lPrms) ∅ ∅
  | Raise _ => ¬ Forall (fun n => accepted c n = true) lPrms.*1
  end.
Proof.
  unfold BaseLayer.__init__. case_bool_decide as Hself.
  - intros H. rewrite Forall_forall in H. specialize (H _ Hself).
    by rewrite self_not_accepted in H.
  - unfold BaseLayer.init_attrs.
    assert (bound_names_accepted c ∅) as H0.
    { intros n. rewrite lookup_empty. by intros [??]. }
    pose proof (init_attrs_from c ∅ lPrms H0) as H.
    destruct (for_each (BaseLayer.init_step c) ∅ lPrms); simpl; [|done].
    destruct H as [? ->]. done.
Qed.





(** The value stored for [output_shape] is not the value given. *)
Lemma construction_stores_tuple :
  ∃ l, new_layer CInnerProduct [("output_shape", PyNum 3)] = Ok l ∧
       attrs l !! "output_shape" = Some (PyTuple [PyNum 3]).
Proof. eexists. split; reflexivity. Qed.

(** ** Aggregation over the layers of a network *)

Lemma the_layer_alive net e :
  layers_alive net → e ∈ _layers net → ∃ l, Network.the_layer net e = Ok l.
Proof.
  intros Ha He. unfold layers_alive in Ha. rewrite Forall_forall in Ha.
  destruct (Ha e He) as [l Hl]. exists l.
  unfold Network.the_layer. by rewrite Hl.
Qed.

Section repeated_name.
Context {V : Type} (net : Network).
Variable step : gmap string V → LayerEntry → result (gmap string V).
Variable P : PyErr → Prop.

(** What the four aggregating accessors have in common: the first
    occurrence of a name binds it, unless the step raises, and a later
    occurrence raises. *)
Hypothesis step_fresh : ∀ r e, e ∈ _layers net → r !! layer_name e = None →
  (∃ err, step r e = Raise err ∧ P err) ∨ ∃ v, step r e = Ok (<[layer_name e := v]> r).
Hypothesis step_seen : ∀ r e, e ∈ _layers net → is_Some (r !! layer_name e) →
  ∃ err, step r e = Raise err ∧ P err.

Lemma aggregate_raises es r :
  es ⊆ _layers net →
  (∃ e, e ∈ es ∧ is_Some (r !! layer_name e)) ∨ ¬ NoDup (layer_name <$> es) →
  ∃ err, for_each step r es = Raise err ∧ P err.
Proof using step_fresh step_seen.
  revert r. induction es as [|e es IH]; intros r Hsub Hrep.
  - destruct Hrep as [(e & He & _)|Hnd].
    + by apply not_elem_of_nil in He.
    + destruct Hnd. constructor.
  - assert (e ∈ _layers net) as He by (apply Hsub; left).
    assert (es ⊆ _layers net) as Hsub' by (intros x Hx; apply Hsub; by right).
    cbn [for_each]. destruct (r !! layer_name e) as [v|] eqn:Er.
    + destruct (step_seen r e He) as (err & -> & ?); [by rewrite Er|]. eauto.
    + destruct (step_fresh r e He Er) as [(err & -> & ?)|[v ->]]; [by eauto|]. simpl.
      apply IH; [done|].
      destruct Hrep as [(e' & He' & Hs)|Hnd].
      * apply elem_of_cons in He' as [->|He'].
        -- rewrite Er in Hs. by destruct Hs.
        -- left. exists e'. split; [done|]. rewrite lookup_insert_is_Some'. by right.
      * rewrite fmap_cons, NoDup_cons in Hnd.
        destruct (decide (layer_name e ∈ layer_name <$> es)) as [Hin|Hout].
        -- left. apply list_elem_of_fmap in Hin as (e' & Hn & He').
           exists e'. split; [done|]. rewrite <- Hn, lookup_insert_eq. eauto.
        -- right. tauto.
Qed.

End repeated_name.

Lemma parameters_raises (net : Network) :
  layers_alive net → ¬ NoDup (layer_name <$> _layers net) →
  Network.parameters net = Raise UnboundLocalError.
Proof.
  intros Ha Hnd. unfold Network.parameters.
  destruct (aggregate_raises net (Network.parameters_step net) (fun e => e = UnboundLocalError))
    with (es := _layers net) (r := (∅ : gmap string (gmap string ndarray)))
    as (err & -> & ->); [| |done|by right|done].
  - intros r e He Er. right. destruct (the_layer_alive net e Ha He) as [l Hl].
    unfold Network.parameters_step. rewrite Hl. simpl. rewrite Er. eauto.
  - intros r e He [v Er]. destruct (the_layer_alive net e Ha He) as [l Hl].
    unfold Network.parameters_step. rewrite Hl. simpl. rewrite Er. eauto.
Qed.

Lemma gradient_raises (net : Network) :
  layers_alive net → ¬ NoDup (layer_name <$> _layers net) →
  Network.gradient net = Raise UnboundLocalError.
Proof.
  intros Ha Hnd. unfold Network.gradient.
  destruct (aggregate_raises net (Network.gradient_step net) (fun e => e = UnboundLocalError))
    with (es := _layers net) (r := (∅ : gmap string (gmap string ndarray)))
    as (err & -> & ->); [| |done|by right|done].
  - intros r e He Er. right. destruct (the_layer_alive net e Ha He) as [l Hl].
    unfold Network.gradient_step. rewrite Hl. simpl. rewrite Er. eauto.
  - intros r e He [v Er]. destruct (the_layer_alive net e Ha He) as [l Hl].
    unfold Network.gradient_step. rewrite Hl. simpl. rewrite Er. eauto.
Qed.

(** Reading [flat_parameters] of a layer always returns. *)
Lemma flat_parameters_returns l : ∃ v, BaseLayer.flat_parameters l = Ok v.
Proof.
  unfold BaseLayer.flat_parameters. case_bool_decide as Hsz; [by eauto|].
  unfold BaseLayer.in_sorted_order, np.concatenate.
  destruct (sorted (prms_ l)) as [|k ks] eqn:Es.
  { apply sorted_empty_iff in Es. rewrite Es, map_size_empty in Hsz. lia. }
  assert (is_Some (prms_ l !! k)) as [a Ha] by (apply elem_of_sorted; rewrite Es; left).
  csimpl. rewrite Ha. csimpl. eexists.
  assert (forallb (fun a0 => bool_decide (np.ndim a0 = 1))
            (np.ravel <$> omap (fun n => prms_ l !! n) ks) = true) as ->; [|done].
  apply forallb_forall. intros x Hx%list_elem_of_In.
  by apply list_elem_of_fmap in Hx as (? & -> & _).
Qed.

Lemma flat_parameters_raises (net : Network) :
  layers_alive net → ¬ NoDup (layer_name <$> _layers net) →
  Network.flat_parameters net = Raise AttributeError.
Proof.
  intros Ha Hnd. unfold Network.flat_parameters.
  destruct (aggregate_raises net (Network.flat_parameters_step net) (fun e => e = AttributeError))
    with (es := _layers net) (r := (∅ : gmap string ndarray))
    as (err & -> & ->); [| |done|by right|done].
  - intros r e He Er. right. destruct (the_layer_alive net e Ha He) as [l Hl].
    destruct (flat_parameters_returns l) as [v Hv].
    unfold Network.flat_parameters_step. rewrite Hl. simpl. rewrite Er, Hv. simpl. eauto.
  - intros r e He [v Er]. destruct (the_layer_alive net e Ha He) as [l Hl].
    destruct (flat_parameters_returns l) as [v' Hv].
    unfold Network.flat_parameters_step. rewrite Hl. simpl. rewrite Er, Hv. simpl. eauto.
Qed.

(** Reading [flat_gradient] of a layer returns or raises ValueError. *)
Lemma flat_gradient_result l :
  (∃ v, BaseLayer.flat_gradient l = Ok v) ∨ BaseLayer.flat_gradient l = Raise ValueError.
Proof.
  unfold BaseLayer.flat_gradient, np.concatenate.
  destruct (np.ravel <$> BaseLayer.in_sorted_order (grad_ l)); [by right|].
  destruct (forallb _ _); eauto.
Qed.

Lemma flat_gradient_raises (net : Network) :
  layers_alive net → ¬ NoDup (layer_name <$> _layers net) →
  Network.flat_gradient net = Raise AttributeError ∨
  Network.flat_gradient net = Raise ValueError.
Proof.
  intros Ha Hnd. unfold Network.flat_gradient.
  destruct (aggregate_raises net (Network.flat_gradient_step net)
              (fun e => e = AttributeError ∨ e = ValueError))
    with (es := _layers net) (r := (∅ : gmap string ndarray))
    as (err & -> & [-> | ->]); [| |done|by right|by left|by right].
  - intros r e He Er. destruct (the_layer_alive net e Ha He) as [l Hl].
    unfold Network.flat_gradient_step. rewrite Hl. simpl. rewrite Er.
    destruct (flat_gradient_result l) as [[v ->]| ->]; simpl.
    + right. eauto.
    + left. eauto.
  - intros r e He [v Er]. destruct (the_layer_alive net e Ha He) as [l Hl].
    unfold Network.flat_gradient_step. rewrite Hl. simpl. rewrite Er.
    destruct (flat_gradient_result l) as [[v' ->]| ->]; simpl; eauto.
Qed.

(** C1: when a name is registered twice, [parameters] does not return the
    sum of the two dictionaries: it raises UnboundLocalError, whatever the
    dictionaries hold. *)
Theorem parameters_repeated_name (net : Network) :
  layers_alive net → ¬ NoDup (layer_name <$> _layers net) →
  Network.parameters net = Raise UnboundLocalError.
Proof. apply parameters_raises. Qed.

Lemma parameters_repeated_name_witness :
  Network.parameters (chain2 "shared" "shared" sample_w1 sample_w2) = Raise UnboundLocalError.
Proof.
  apply (parameters_repeated_name (chain2 "shared" "shared" sample_w1 sample_w2)).
  - apply (bool_decide_unpack _). vm_compute. exact I.
  - apply (bool_decide_unpack _). vm_compute. exact I.
Defined.

(** A name registered once is bound to the dictionary of its layer. *)
Lemma parameters_distinct_names_from (net : Network) es r :
  layers_alive net → es ⊆ _layers net → NoDup (layer_name <$> es) →
  (∀ e, e ∈ es → r !! layer_name e = None) →
  ∃ r', for_each (Network.parameters_step net) r es = Ok r' ∧
        (∀ n, n ∉ layer_name <$> es → r' !! n = r !! n) ∧
        (∀ e l, e ∈ es → objects net !! layer_instance e = Some l →
                r' !! layer_name e = Some (prms_ l)).
Proof.
  intros Ha. revert r. induction es as [|e es IH]; intros r Hsub Hnd Hr.
  - exists r. split_and!; [done|done|]. intros e l He. by apply not_elem_of_nil in He.
  - rewrite fmap_cons, NoDup_cons in Hnd. destruct Hnd as [Hn Hnd].
    assert (e ∈ _layers net) as He by (apply Hsub; left).
    destruct (the_layer_alive net e Ha He) as [l Hl].
    assert (Network.parameters_step net r e
            = Ok (<[layer_name e := BaseLayer.parameters l]> r)) as Es.
    { unfold Network.parameters_step. rewrite Hl. simpl. by rewrite (Hr e) by left. }
    cbn [for_each]. rewrite Es. simpl.
    destruct (IH (<[layer_name e := BaseLayer.parameters l]> r)) as (r' & E & Hout & Hin).
    + intros x Hx. apply Hsub. by right.
    + done.
    + intros e' He'. rewrite lookup_insert_ne; [apply Hr; by right|].
      intros Heq. apply Hn. rewrite Heq. by apply list_elem_of_fmap_2.
    + exists r'. split_and!; [done| |].
      * intros n Hn'. apply not_elem_of_cons in Hn' as [? ?].
        rewrite Hout by done. by rewrite lookup_insert_ne.
      * intros e' l' He' Hl'. apply elem_of_cons in He' as [->|He']; [|by eapply Hin].
        rewrite Hout by done. rewrite lookup_insert_eq.
        unfold Network.the_layer in Hl. rewrite Hl' in Hl. simpl in Hl. by injection Hl as ->.
Qed.

Lemma parameters_distinct_names (net : Network) :
  layers_alive net → NoDup (layer_name <$> _layers net) →
  ∃ r, Network.parameters net = Ok r ∧
       ∀ e l, e ∈ _layers net → objects net !! layer_instance e = Some l →
              r !! layer_name e = Some (prms_ l).
Proof.
  intros Ha Hnd.
  destruct (parameters_distinct_names_from net (_layers net) ∅ Ha) as (r & E & _ & H);
    [done|done|by intros; apply lookup_empty|].
  exists r. done.
Qed.

(** C5: when a name is registered twice, the four accessors raise, but
    none reports a difference between the keys, which are not compared:
    [parameters] and [gradient] raise UnboundLocalError, [flat_parameters]
    raises AttributeError, [flat_gradient] AttributeError or, when a layer
    without gradients comes first, ValueError. *)
Theorem aggregation_repeated_name (net : Network) :
  layers_alive net → ¬ NoDup (layer_name <$> _layers net) →
  Network.parameters net = Raise UnboundLocalError ∧
  Network.gradient net = Raise UnboundLocalError ∧
  Network.flat_parameters net = Raise AttributeError ∧
  (Network.flat_gradient net = Raise AttributeError ∨
   Network.flat_gradient net = Raise ValueError).
Proof.
  intros Ha Hnd. split_and!.
  - by apply parameters_raises.
  - by apply gradient_raises.
  - by apply flat_parameters_raises.
  - by apply flat_gradient_raises.
Qed.

(** The two layers hold the keys [w] and [b]. *)
Lemma aggregation_repeated_name_witness :
  Network.parameters (chain2 "shared" "shared" sample_w1 sample_b) = Raise UnboundLocalError ∧
  Network.gradient (chain2 "shared" "shared" sample_w1 sample_b) = Raise UnboundLocalError ∧
  Network.flat_parameters (chain2 "shared" "shared" sample_w1 sample_b) = Raise AttributeError ∧
  (Network.flat_gradient (chain2 "shared" "shared" sample_w1 sample_b) = Raise AttributeError ∨
   Network.flat_gradient (chain2 "shared" "shared" sample_w1 sample_b) = Raise ValueError).
Proof.
  apply (aggregation_repeated_name (chain2 "shared" "shared" sample_w1 sample_b)).
  - apply (bool_decide_unpack _). vm_compute. exact I.
  - apply (bool_decide_unpack _). vm_compute. exact I.
Defined.

(** With different keys and with the same keys, the same errors. *)
Example aggregation_differing_keys :
  Network.parameters (chain2 "shared" "shared" sample_w1 sample_b) = Raise UnboundLocalError ∧
  Network.gradient (chain2 "shared" "shared" sample_w1 sample_b) = Raise UnboundLocalError ∧
  Network.flat_parameters (chain2 "shared" "shared" sample_w1 sample_b) = Raise AttributeError ∧
  Network.flat_gradient (chain2 "shared" "shared" sample_w1 sample_b) = Raise AttributeError.
Proof. by vm_compute. Qed.

Example aggregation_identical_keys :
  Network.parameters (chain2 "shared" "shared" sample_w1 sample_w2) = Raise UnboundLocalError ∧
  Network.gradient (chain2 "shared" "shared" sample_w1 sample_w2) = Raise UnboundLocalError ∧
  Network.flat_parameters (chain2 "shared" "shared" sample_w1 sample_w2) = Raise AttributeError ∧
  Network.flat_gradient (chain2 "shared" "shared" sample_w1 sample_w2) = Raise AttributeError.
Proof. by vm_compute. Qed.

(** ** Flat views of a layer without gradients or parameters *)

Lemma sorted_empty {A} : sorted (∅ : gmap string A) = [].
Proof. by apply sorted_empty_iff. Qed.

Lemma flat_gradient_empty l : grad_ l = ∅ → BaseLayer.flat_gradient l = Raise ValueError.
Proof.
  intros E. unfold BaseLayer.flat_gradient, BaseLayer.in_sorted_order.
  by rewrite E, sorted_empty.
Qed.

Lemma flat_gradient_step_empty net r e l :
  objects net !! layer_instance e = Some l → grad_ l = ∅ →
  Network.flat_gradient_step net r e = Raise ValueError.
Proof.
  intros Hl E. unfold Network.flat_gradient_step, Network.the_layer. rewrite Hl. simpl.
  rewrite (flat_gradient_empty l E). by destruct (r !! layer_name e).
Qed.

Lemma flat_gradient_loop_raises net es r e l :
  e ∈ es → objects net !! layer_instance e = Some l → grad_ l = ∅ →
  is_Raise (for_each (Network.flat_gradient_step net) r es).
Proof.
  intros He Hl E. revert r. induction es as [|e0 es IH]; intros r.
  - by apply not_elem_of_nil in He.
  - cbn [for_each]. apply elem_of_cons in He as [<-|He].
    + by rewrite (flat_gradient_step_empty net r e l Hl E).
    + destruct (Network.flat_gradient_step net r e0); simpl; [by apply IH|done].
Qed.

(** The layers other than the affine one are created, and stay after
    [setup], without gradients and parameters. *)
Lemma new_layer_no_storage c lPrms l :
  c ≠ CInnerProduct → new_layer c lPrms = Ok l → cls l = c ∧ grad_ l = ∅ ∧ prms_ l = ∅.
Proof.
  intros Hc E. pose proof (BaseLayer_init_spec c lPrms) as H.
  destruct c; try done; simpl in E; rewrite E in H; destruct H as [_ ->]; done.
Qed.

Lemma setup_no_storage l h bottom top l' h' :
  cls l ≠ CInnerProduct → layer_setup l h bottom top = Ok (l', h') → l' = l.
Proof.
  intros Hc. unfold layer_setup.
  destruct (cls l); try done; unfold BaseLayer.setup, ReLU.setup, Sigmoid.setup, SoftMax.setup.
  - by intros [= -> _].
  - destruct (resize_tops h bottom top); simpl; [|done]. by intros [= -> _].
  - destruct (resize_tops h bottom top); simpl; [|done]. by intros [= -> _].
  - by destruct bottom as [|? [|??]], top as [|? [|??]].
Qed.

(** C10: reading [flat_gradient] of a layer without gradients raises
    ValueError, and so does, with some error, [flat_gradient] of a network
    one of whose entries is such a layer; reading [flat_parameters] of a
    layer without parameters gives the one-dimensional array of length 0. *)
Theorem flat_views_without_storage :
  (∀ l, grad_ l = ∅ → BaseLayer.flat_gradient l = Raise ValueError) ∧
  (∀ net e l, e ∈ _layers net → objects net !! layer_instance e = Some l → grad_ l = ∅ →
     is_Raise (Network.flat_gradient net)) ∧
  (∀ l, prms_ l = ∅ → BaseLayer.flat_parameters l = Ok (Array [0] [])).
Proof.
  split_and!.
  - apply flat_gradient_empty.
  - intros net e l He Hl E. unfold Network.flat_gradient.
    pose proof (flat_gradient_loop_raises net (_layers net) ∅ e l He Hl E) as H.
    by destruct (for_each (Network.flat_gradient_step net) ∅ (_layers net)).
  - intros l E. unfold BaseLayer.flat_parameters. by rewrite E.
Qed.

Lemma flat_views_without_storage_witness :
  BaseLayer.flat_gradient sample_relu = Raise ValueError ∧
  is_Raise (Network.flat_gradient (chain2 "a" "b" sample_w1 sample_relu)) ∧
  BaseLayer.flat_parameters sample_relu = Ok (Array [0] []).
Proof.
  destruct flat_views_without_storage as (H1 & H2 & H3). split_and!.
  - apply H1. reflexivity.
  - apply (H2 _ (mkEntry "b" 1 ["y"] ["z"]) sample_relu).
    + vm_compute. right. left.
    + reflexivity.
    + reflexivity.
  - apply H3. reflexivity.
Defined.

(** ** The backward pass *)



(** The arrays a loop of overwrites does not name are left as they are. *)
Lemma overwrite_other d kw : ∀ h h' a,
  for_each (Network.overwrite d) h kw = Ok h' →
  (∀ n, n ∈ kw.*1 → d !! n ≠ Some a) →
  h' !! a = h !! a.
Proof.
  induction kw as [|[n v] kw IH]; intros h h' a H Hn.
  - by injection H as <-.
  - cbn [for_each] in H. apply bind_Ok in H as (h1 & H1 & H).
    rewrite (IH h1 h' a H).
    + unfold Network.overwrite, Network.lookup in H1. simpl in H1.
      destruct (d !! n) as [a0|] eqn:Ed; simpl in H1; [|done].
      apply bind_Ok in H1 as (x & _ & H1). apply bind_Ok in H1 as (r & _ & H1).
      injection H1 as <-. apply lookup_write_ne. intros ->.
      apply (Hn n); [left|done].
    + intros n' Hn'. apply Hn. by right.
Qed.




(** On the chain A, B, C the layers are called in the order C, B, A. *)
Example backward1_chain3 :
  calls chain3_back
    = [(MSetup, 0); (MSetup, 1); (MSetup, 2); (MBackward, 2); (MBackward, 1); (MBackward, 0)].
Proof. by vm_compute. Qed.

(** ** Setting a network up *)

Lemma grows_refl net : grows net net.
Proof. done. Qed.

Lemma grows_trans net1 net2 net3 : grows net1 net2 → grows net2 net3 → grows net1 net3.
Proof. intros [E1 H1] [E2 H2]. split; [congruence|auto]. Qed.

Lemma seed_blob_grows net kv :
  grows net (Network.seed_blob net kv) ∧ is_Some (_blobs (Network.seed_blob net kv) !! kv.1).
Proof.
  unfold grows, Network.seed_blob. simpl. split_and!; [done| |].
  - intros n. rewrite lookup_insert_is_Some'. by right.
  - rewrite lookup_insert_eq. eauto.
Qed.

Lemma seed_blobs_grows kw : ∀ net,
  grows net (foldl Network.seed_blob net kw) ∧
  ∀ n, n ∈ kw.*1 → is_Some (_blobs (foldl Network.seed_blob net kw) !! n).
Proof.
  induction kw as [|kv kw IH]; intros net; simpl.
  - split; [done|]. intros n Hn. by apply not_elem_of_nil in Hn.
  - destruct (seed_blob_grows net kv) as [Hg Hk].
    destruct (IH (Network.seed_blob net kv)) as [Hg' Hk'].
    split; [by eapply grows_trans|].
    intros n [->|Hn]%elem_of_cons; [|by apply Hk']. by apply Hg'.
Qed.

Lemma placeholder_grows net s :
  grows net (Network.placeholder net s) ∧ is_Some (_blobs (Network.placeholder net s) !! s).
Proof.
  unfold grows, Network.placeholder. destruct (_blobs net !! s) eqn:E; simpl.
  - split; [done|]. rewrite E. eauto.
  - split_and!; [done| |].
    + intros n. rewrite lookup_insert_is_Some'. by right.
    + rewrite lookup_insert_eq. eauto.
Qed.

Lemma placeholders_grows ss : ∀ net,
  grows net (foldl Network.placeholder net ss) ∧
  ∀ n, n ∈ ss → is_Some (_blobs (foldl Network.placeholder net ss) !! n).
Proof.
  induction ss as [|s ss IH]; intros net; simpl.
  - split; [done|]. intros n Hn. by apply not_elem_of_nil in Hn.
  - destruct (placeholder_grows net s) as [Hg Hk].
    destruct (IH (Network.placeholder net s)) as [Hg' Hk'].
    split; [by eapply grows_trans|].
    intros n [->|Hn]%elem_of_cons; [|by apply Hk']. by apply Hg'.
Qed.

Lemma setup_layer_grows net e net' :
  Network.setup_layer net e = Ok net' →
  grows net net' ∧ ∀ n, n ∈ input_blobs e ++ output_blobs e → is_Some (_blobs net' !! n).
Proof.
  unfold Network.setup_layer. intros H.
  repeat (apply bind_Ok in H as (? & _ & H)). injection H as <-. simpl.
  apply placeholders_grows.
Qed.

Lemma setup_layers_grows es : ∀ net net',
  for_each Network.setup_layer net es = Ok net' →
  grows net net' ∧
  ∀ e n, e ∈ es → n ∈ input_blobs e ++ output_blobs e → is_Some (_blobs net' !! n).
Proof.
  induction es as [|e es IH]; intros net net' H.
  - injection H as <-. split; [done|]. intros e n He. by apply not_elem_of_nil in He.
  - cbn [for_each] in H. apply bind_Ok in H as (net1 & H1 & H).
    apply setup_layer_grows in H1 as [Hg Hk]. apply IH in H as [Hg' Hk'].
    split; [by eapply grows_trans|].
    intros e' n [->|He']%elem_of_cons Hn; [|by eapply Hk']. apply Hg'. by apply Hk.
Qed.

Lemma make_diff_spec net na net' :
  Network.make_diff net na = Ok net' →
  ∃ b, arrays net !! na.2 = Some b ∧
       arrays net' = arrays net ++ [np.scale 0 b] ∧
       _diffs net' = <[na.1 := length (arrays net)]> (_diffs net) ∧
       _blobs net' = _blobs net.
Proof.
  unfold Network.make_diff. intros H. apply bind_Ok in H as (b & Hb & H).
  apply read_Ok in Hb. injection H as <-. by exists b.
Qed.





(** The four blobs of the chain and their diffs after [setup]. *)
Example setup_chain3 :
  (fun n => (Network.blob chain3_ready n, Network.diff chain3_ready n)) <$> ["x"; "y"; "z"; "w"]
  = [(Some (np.zeros [3]), Some (np.zeros [3])); (Some (np.zeros [3]), Some (np.zeros [3]));
     (Some (np.zeros [3]), Some (np.zeros [3])); (Some (np.zeros [3]), Some (np.zeros [3]))].
Proof. by vm_compute. Qed.

(** ** Snapshots of the blobs *)

Lemma deepcopy_items_spec (L : nat) l : ∀ h memo d h' memo' d',
  for_each Network.deepcopy_item (h, memo, d) l = Ok (h', memo', d') →
  L ≤ length h → (∀ n a, (n, a) ∈ l → a < L) → NoDup l.*1 →
  (∀ a a', memo !! a = Some a' → L ≤ a' ∧ ∃ v, h !! a = Some v ∧ h !! a' = Some v) →
  h `prefix_of` h' ∧
  (∀ n, n ∉ l.*1 → d' !! n = d !! n) ∧
  (∀ n a, (n, a) ∈ l →
     ∃ a' v, d' !! n = Some a' ∧ L ≤ a' ∧ h !! a = Some v ∧ h' !! a' = Some v).
Proof.
  induction l as [|[n0 a0] l IH]; intros h memo d h' memo' d' H HL Hl Hnd Hmemo.
  - injection H as <- <- <-. split_and!; [done|done|].
    intros n a Hin. by apply not_elem_of_nil in Hin.
  - rewrite fmap_cons in Hnd. apply NoDup_cons in Hnd as [Hn0 Hnd].
    assert (a0 < L) as Ha0 by (apply (Hl n0); left).
    assert (∀ n a, (n, a) ∈ l → a < L) as Hl' by (intros n a ?; apply (Hl n); by right).
    cbn [for_each] in H. apply bind_Ok in H as ([[h1 memo1] d1] & H1 & H).
    unfold Network.deepcopy_item in H1. simpl in H1.
    destruct (memo !! a0) as [a0'|] eqn:Em.
    + injection H1 as <- <- <-.
      destruct (Hmemo a0 a0' Em) as (Hle & v & Hv & Hv').
      destruct (IH _ _ _ _ _ _ H HL Hl' Hnd Hmemo) as (Hpre & Hout & Hin).
      split_and!; [done| |].
      * intros n [Hne Hn]%not_elem_of_cons. rewrite Hout by done.
        by rewrite lookup_insert_ne.
      * intros n a [[= -> ->]|Hna]%elem_of_cons; [|by apply Hin].
        exists a0', v. split_and!; [|done|done|by eapply prefix_lookup_Some].
        rewrite Hout by done. by rewrite lookup_insert_eq.
    + apply bind_Ok in H1 as (v & Hv & H1). apply read_Ok in Hv.
      injection H1 as <- <- <-.
      assert (h `prefix_of` h ++ [v]) as Hp1 by (by apply prefix_app_r).
      destruct (IH _ _ _ _ _ _ H) as (Hpre & Hout & Hin); [| done | done | |].
      * rewrite length_app. lia.
      * intros a a'. rewrite lookup_insert. case_decide as Ea.
        -- intros [= <-]. subst a. split; [lia|]. exists v. split.
           ++ by apply lookup_app_l_Some.
           ++ rewrite lookup_app_r by done. by rewrite Nat.sub_diag.
        -- intros Hm. destruct (Hmemo a a' Hm) as (? & v' & ? & ?).
           split; [done|]. exists v'. split; by apply lookup_app_l_Some.
      * split_and!; [by etrans| |].
        -- intros n [Hne Hn]%not_elem_of_cons. rewrite Hout by done.
           by rewrite lookup_insert_ne.
        -- intros n a [[= -> ->]|Hna]%elem_of_cons.
           ++ exists (length h), v. split_and!; [|lia|done|].
              ** rewrite Hout by done. by rewrite lookup_insert_eq.
              ** eapply prefix_lookup_Some; [|done]. rewrite lookup_app_r by done.
                 by rewrite Nat.sub_diag.
           ++ destruct (Hin n a Hna) as (a' & v' & ? & ? & Hv1 & ?).
              exists a', v'. split_and!; try done.
              rewrite lookup_app_l in Hv1; [done|]. specialize (Hl' n a Hna). lia.
Qed.

(** [pushState] appends to the history a dictionary with the keys of the
    blobs, bound to new arrays that hold the values of the blobs; nothing
    else changes. *)
Lemma pushState_spec net net1 :
  blobs_alive net → Network.pushState net = Ok net1 →
  ∃ snap,
    _blob_history net1 = _blob_history net ++ [snap] ∧
    arrays net `prefix_of` arrays net1 ∧
    objects net1 = objects net ∧ _layers net1 = _layers net ∧
    _blobs net1 = _blobs net ∧ _diffs net1 = _diffs net ∧ calls net1 = calls net ∧
    (∀ n, _blobs net !! n = None → snap !! n = None) ∧
    (∀ n a, _blobs net !! n = Some a →
       ∃ a' v, snap !! n = Some a' ∧ length (arrays net) ≤ a' ∧
               arrays net !! a = Some v ∧ arrays net1 !! a' = Some v).
Proof.
  intros Halive. unfold Network.pushState, Network.deepcopy. intros H.
  apply bind_Ok in H as ([h snap] & H & E). injection E as <-.
  apply bind_Ok in H as ([[h' memo'] d'] & H & E). injection E as <- <-.
  apply (deepcopy_items_spec (length (arrays net))) in H as (Hpre & Hout & Hin).
  - exists d'. simpl. split_and!; try done.
    + intros n Hn. rewrite Hout; [apply lookup_empty|].
      rewrite elem_of_keys, Hn. by intros [??].
    + intros n a Hna. apply Hin. by apply elem_of_map_to_list.
  - done.
  - intros n a Hna%elem_of_map_to_list. by apply (Halive n).
  - apply NoDup_fst_map_to_list.
  - intros a a'. by rewrite lookup_empty.
Qed.


(** *** What a forward pass writes *)


Lemma writes_only_write top h h' t r :
  writes_only top h h' → t ∈ top → writes_only top h (heap.write h' t r).
Proof.
  intros [Hl Hf] Ht. split; [by rewrite length_write|].
  intros a Ha. rewrite lookup_write_ne; [by apply Hf|]. by intros ->.
Qed.

Ltac bind_inv H := repeat (apply bind_Ok in H as (? & ? & H)).

Lemma pairwise_loop_writes_only (f : list ndarray → nat * nat → result (list ndarray))
    bottom top h h' :
  (∀ s b t s', f s (b, t) = Ok s' → ∃ r, s' = heap.write s t r) →
  for_each f h (zip bottom top) = Ok h' → writes_only top h h'.
Proof.
  intros Hf. apply (for_each_inv (writes_only top h)); [|done].
  intros s [b t] s' Hin Hs E. apply Hf in E as [r ->].
  apply writes_only_write; [done|]. by apply elem_of_zip_r in Hin.
Qed.

Lemma layer_forward_writes_top `{Numerics} l h bottom top l' h' :
  layer_forward l h bottom top = Ok (l', h') → l' = l ∧ writes_only top h h'.
Proof.
  unfold layer_forward. destruct (cls l).
  - by intros [= <- <-].
  - unfold ReLU.forward. intros E. apply bind_Ok in E as (h1 & E & [= <- <-]).
    split; [done|]. eapply pairwise_loop_writes_only; [|done].
    intros s b t s' E'. bind_inv E'. injection E' as <-. eauto.
  - unfold Sigmoid.forward. intros E. apply bind_Ok in E as (h1 & E & [= <- <-]).
    split; [done|]. eapply pairwise_loop_writes_only; [|done].
    intros s b t s' E'. bind_inv E'. injection E' as <-. eauto.
  - unfold InnerProduct.forward. intros E. bind_inv E. injection E as <- <-.
    split; [done|]. apply writes_only_write; [done|].
    destruct (top !! 0) eqn:Et; simplify_eq/=. by eapply list_elem_of_lookup_2.
  - done.
Qed.

Lemma lookups_is_blob net ns : ∀ top,
  Network._get_blobs net ns = Ok top → ∀ t, t ∈ top → is_blob net t.
Proof.
  unfold Network._get_blobs.
  induction ns as [|n ns IH]; intros top E; simpl in E.
  - injection E as <-. intros t Ht. by apply not_elem_of_nil in Ht.
  - apply bind_Ok in E as (a & Ea & E). apply bind_Ok in E as (k & Ek & [= <-]).
    intros t [->|Ht]%elem_of_cons; [|by eapply IH].
    exists n. unfold Network.lookup in Ea. by destruct (_blobs net !! n); simplify_eq/=.
Qed.

Lemma blobs_rewritten_trans net1 net2 net3 :
  blobs_rewritten net1 net2 → blobs_rewritten net2 net3 → blobs_rewritten net1 net3.
Proof.
  intros (Hb & Hd & Hh & Ho & Hl & Hn & Hf) (Hb' & Hd' & Hh' & Ho' & Hl' & Hn' & Hf').
  unfold blobs_rewritten. split_and!; try congruence.
  intros a Ha. rewrite Hf', Hf; [done|done|]. unfold is_blob. by rewrite Hb.
Qed.

Lemma forward_layer_rewrites `{Numerics} net e net' :
  Network.forward_layer net e = Ok net' → blobs_rewritten net net'.
Proof.
  unfold Network.forward_layer. intros E.
  apply bind_Ok in E as (l & El & E). apply bind_Ok in E as (bottom & Eb & E).
  apply bind_Ok in E as (top & Et & E). apply bind_Ok in E as ([l' h'] & Ef & [= <-]).
  apply layer_forward_writes_top in Ef as [-> [Hlen Hf]].
  unfold blobs_rewritten. simpl. split_and!; try done.
  - unfold Network.the_layer in El.
    destruct (objects net !! layer_instance e) eqn:Eo; simplify_eq/=.
    by apply list_insert_id.
  - intros a Ha. apply Hf. intros Hin. apply Ha. by eapply lookups_is_blob.
Qed.

Lemma forward_layers_rewrite `{Numerics} es : ∀ net net',
  for_each Network.forward_layer net es = Ok net' → blobs_rewritten net net'.
Proof.
  induction es as [|e es IH]; intros net net' E.
  - injection E as <-. by unfold blobs_rewritten.
  - cbn [for_each] in E. apply bind_Ok in E as (net1 & E1 & E).
    eapply blobs_rewritten_trans; [by eapply forward_layer_rewrites|by apply IH].
Qed.

Lemma overwrite_length d kw : ∀ h h',
  for_each (Network.overwrite d) h kw = Ok h' → length h' = length h.
Proof.
  induction kw as [|kv kw IH]; intros h h' E.
  - by injection E as <-.
  - cbn [for_each] in E. apply bind_Ok in E as (h1 & E1 & E).
    rewrite (IH _ _ E). unfold Network.overwrite in E1. bind_inv E1.
    injection E1 as <-. apply length_write.
Qed.

Lemma forward1_rewrites `{Numerics} net kwargs net' :
  Network.forward1 net kwargs = Ok net' → blobs_rewritten net net'.
Proof.
  unfold Network.forward1. intros E. apply bind_Ok in E as (h & Eh & E).
  apply forward_layers_rewrite in E.
  eapply blobs_rewritten_trans; [|done].
  unfold blobs_rewritten. simpl. split_and!; try done.
  - by eapply overwrite_length.
  - intros a Ha. eapply overwrite_other; [done|].
    intros n _ Hn. apply Ha. by exists n.
Qed.



(** The forward pass changes the blobs, [popState] brings them back, and two
    snapshots are taken back in the reverse order. *)
Example push_forward_pop_chain3 :
  Network.blob chain3_forward <$> ["x"; "y"]
    = [Some (np.vector [5; -6; 7]%Z); Some (np.vector [5; 0; 7]%Z)] ∧
  (net ← Network.popState chain3_forward; Ok (Network.blob net <$> ["x"; "y"]))
    = Ok [Some (np.vector [0; 0; 0]%Z); Some (np.vector [0; 0; 0]%Z)] ∧
  (net ← Network.pushState chain3_forward;
   net ← Network.forward1 (H := sample_numerics) net [("x", np.vector [-1; 2; -3]%Z)];
   net ← Network.popState net;
   let first := Network.blob net <$> ["x"; "y"] in
   net ← Network.popState net;
   Ok (first, Network.blob net <$> ["x"; "y"]))
    = Ok ([Some (np.vector [5; -6; 7]%Z); Some (np.vector [5; 0; 7]%Z)],
          [Some (np.vector [0; 0; 0]%Z); Some (np.vector [0; 0; 0]%Z)]).
Proof. by vm_compute. Qed.

(** ** The affine layer *)

(** C8: with weight 5 the layer maps the input 2 to 10, so the gradient of
    the input for the upstream gradient 3 is 15; [backward] writes 0, the
    product of 3 with the gradient stored for the weight, still 0 after
    [setup]. It stores 6 and 3 as gradients of weight and bias; a second
    call then writes 18 as gradient of the input, and stores 6 and 3
    again. *)
Theorem InnerProduct_backward_reads_gradient :
  ∃ l h l0 h0 l1 h1 l2 h2,
    affine_ready = Ok (l, h) ∧
    prms_ l !! "w" = Some (Array [1; 1; 1] [5%Z]) ∧
    InnerProduct.forward l h [0] [1] = Ok (l0, h0) ∧
    h0 !! 1 = Some (Array [1] [10%Z]) ∧
    InnerProduct.backward l0 h0 [0] [1] [2] [3] = Ok (l1, h1) ∧
    h1 !! 2 = Some (Array [1; 1] [0%Z]) ∧
    grad_ l1 !! "w" = Some (Array [1; 1; 1] [6%Z]) ∧
    grad_ l1 !! "b" = Some (Array [1] [3%Z]) ∧
    InnerProduct.backward l1 h1 [0] [1] [2] [3] = Ok (l2, h2) ∧
    h2 !! 2 = Some (Array [1; 1] [18%Z]) ∧
    grad_ l2 !! "w" = Some (Array [1; 1; 1] [6%Z]) ∧
    grad_ l2 !! "b" = Some (Array [1] [3%Z]).
Proof.
  do 8 eexists. split_and!; by vm_compute.
Qed.

(** * Further properties of the code *)

(** ** The order of the layer calls in [setup] and [forward1] *)





Lemma seed_blobs_calls kw : ∀ net,
  calls (foldl Network.seed_blob net kw) = calls net ∧
  _layers (foldl Network.seed_blob net kw) = _layers net.
Proof.
  induction kw as [|kv kw IH]; intros net; [done|]. simpl.
  destruct (IH (Network.seed_blob net kv)) as [-> ->]. done.
Qed.






(** ** Names that are no blob or diff *)




Lemma get_names_unknown (net : Network) (e : LayerEntry) :
  _blobs net = ∅ → input_blobs e ++ output_blobs e ≠ [] →
  (bottom ← Network._get_blobs net (input_blobs e);
   top ← Network._get_blobs net (output_blobs e);
   Ok (bottom, top)) = Raise KeyError.
Proof.
  intros Hb Hne. unfold Network._get_blobs. rewrite Hb.
  destruct (input_blobs e) as [|i is_]; simpl.
  - destruct (output_blobs e) as [|o os]; [done|]. simpl.
    unfold Network.lookup. by rewrite lookup_empty.
  - unfold Network.lookup. by rewrite lookup_empty.
Qed.

(** X4: Before [setup] no name is a blob: on a network whose first and last
    entries have an input or output name, a forward pass raises KeyError
    when it comes to the first entry and a backward pass when it comes to
    the last. *)
Theorem passes_before_setup `{Numerics} (net : Network) (first last : LayerEntry)
    (es1 es2 : list LayerEntry) :
  _blobs net = ∅ → _layers net = first :: es1 → _layers net = es2 ++ [last] →
  is_Some (objects net !! layer_instance first) →
  is_Some (objects net !! layer_instance last) →
  input_blobs first ++ output_blobs first ≠ [] →
  input_blobs last ++ output_blobs last ≠ [] →
  Network.forward1 net [] = Raise KeyError ∧ Network.backward1 net [] = Raise KeyError.
Proof.
  intros Hb E1 E2 [l1 Hl1] [l2 Hl2] Hne1 Hne2.
  pose proof (get_names_unknown (Network.with_arrays net (arrays net)) first Hb Hne1) as Hg1.
  pose proof (get_names_unknown (Network.with_arrays net (arrays net)) last Hb Hne2) as Hg2.
  split.
  - unfold Network.forward1. simpl. rewrite E1. cbn [for_each].
    unfold Network.forward_layer, Network.the_layer. simpl. rewrite Hl1. simpl.
    destruct (Network._get_blobs _ (input_blobs first)); simpl in *; [|by injection Hg1 as ->].
    destruct (Network._get_blobs _ (output_blobs first)); simpl in *;
      [done|by injection Hg1 as ->].
  - unfold Network.backward1. simpl. rewrite E2, rev_app_distr. cbn [rev app for_each].
    unfold Network.backward_layer, Network.the_layer. simpl. rewrite Hl2. simpl.
    destruct (Network._get_blobs _ (input_blobs last)); simpl in *; [|by injection Hg2 as ->].
    destruct (Network._get_blobs _ (output_blobs last)); simpl in *;
      [done|by injection Hg2 as ->].
Qed.

Lemma passes_before_setup_witness :
  Network.forward1 (H := sample_numerics) chain3 [] = Raise KeyError ∧
  Network.backward1 chain3 [] = Raise KeyError.
Proof.
  apply (passes_before_setup (H := sample_numerics) chain3
           (mkEntry "A" 0 ["x"] ["y"]) (mkEntry "C" 2 ["z"] ["w"])
           [mkEntry "B" 1 ["y"] ["z"]; mkEntry "C" 2 ["z"] ["w"]]
           [mkEntry "A" 0 ["x"] ["y"]; mkEntry "B" 1 ["y"] ["z"]]).
  - reflexivity.
  - reflexivity.
  - reflexivity.
  - vm_compute. eexists. reflexivity.
  - vm_compute. eexists. reflexivity.
  - discriminate.
  - discriminate.
Defined.

(** ** The softmax layer *)

Lemma layer_setup_cls l h bottom top l' h' :
  layer_setup l h bottom top = Ok (l', h') → cls l' = cls l.
Proof.
  unfold layer_setup.
  destruct (cls l) eqn:Ec; unfold BaseLayer.setup, ReLU.setup, Sigmoid.setup,
    InnerProduct.setup, SoftMax.setup; intros E.
  - by injection E as <- _.
  - apply bind_Ok in E as (? & _ & E). by injection E as <- _.
  - apply bind_Ok in E as (? & _ & E). by injection E as <- _.
  - destruct bottom as [|? [|??]], top as [|? [|??]]; try done.
    repeat (apply bind_Ok in E as (? & _ & E)). by injection E as <- _.
  - by destruct bottom as [|? [|??]], top as [|? [|??]].
Qed.

Lemma SoftMax_setup_raises l h bottom top :
  cls l = CSoftMax → is_Raise (layer_setup l h bottom top).
Proof.
  intros Ec. unfold layer_setup. rewrite Ec. unfold SoftMax.setup.
  by destruct bottom as [|? [|??]], top as [|? [|??]].
Qed.

Lemma placeholders_objects ss : ∀ net,
  objects (foldl Network.placeholder net ss) = objects net.
Proof.
  induction ss as [|s ss IH]; intros net; [done|]. simpl.
  rewrite IH. unfold Network.placeholder. by destruct (_blobs net !! s).
Qed.

Lemma setup_layer_softmax net e l :
  objects net !! layer_instance e = Some l → cls l = CSoftMax →
  is_Raise (Network.setup_layer net e).
Proof.
  intros Hl Ec. unfold Network.setup_layer.
  set (net1 := foldl Network.placeholder net (input_blobs e ++ output_blobs e)).
  assert (objects net1 = objects net) as Ho by apply placeholders_objects.
  unfold Network.the_layer. rewrite Ho, Hl. simpl.
  destruct (Network._get_blobs net1 (input_blobs e)) as [bs|]; simpl; [|done].
  destruct (Network._get_blobs net1 (output_blobs e)) as [ts|]; simpl; [|done].
  pose proof (SoftMax_setup_raises l (arrays net1) bs ts Ec) as Hr.
  by destruct (layer_setup l (arrays net1) bs ts).
Qed.

Lemma setup_layer_keeps_cls net e net' i l :
  Network.setup_layer net e = Ok net' → objects net !! i = Some l →
  ∃ l', objects net' !! i = Some l' ∧ cls l' = cls l.
Proof.
  unfold Network.setup_layer.
  set (net1 := foldl Network.placeholder net (input_blobs e ++ output_blobs e)).
  assert (objects net1 = objects net) as Ho by apply placeholders_objects.
  intros E Hi. apply bind_Ok in E as (l0 & El & E).
  apply bind_Ok in E as (bottom & _ & E). apply bind_Ok in E as (top & _ & E).
  apply bind_Ok in E as ([l1 h1] & Es & E). injection E as <-. simpl.
  apply layer_setup_cls in Es. unfold Network.the_layer in El. rewrite Ho in *.
  destruct (decide (i = layer_instance e)) as [->|Hne].
  - rewrite Hi in El. simpl in El. injection El as <-.
    exists l1. split; [|done]. apply list_lookup_insert_eq. by eapply lookup_lt_Some.
  - exists l. split; [|done]. by rewrite list_lookup_insert_ne.
Qed.

Lemma setup_layers_softmax es : ∀ net e l,
  e ∈ es → objects net !! layer_instance e = Some l → cls l = CSoftMax →
  is_Raise (for_each Network.setup_layer net es).
Proof.
  induction es as [|e0 es IH]; intros net e l He Hl Ec.
  - by apply not_elem_of_nil in He.
  - cbn [for_each]. apply elem_of_cons in He as [<-|He].
    + pose proof (setup_layer_softmax net e l Hl Ec) as Hr.
      by destruct (Network.setup_layer net e).
    + destruct (Network.setup_layer net e0) as [net1|] eqn:E1; simpl; [|done].
      destruct (setup_layer_keeps_cls net e0 net1 _ l E1 Hl) as (l' & Hl' & Ec').
      apply (IH net1 e l'); [done|done|congruence].
Qed.

Lemma seed_blobs_objects kw : ∀ net,
  objects (foldl Network.seed_blob net kw) = objects net.
Proof. induction kw as [|kv kw IH]; intros net; [done|]. simpl. by rewrite IH. Qed.

Lemma forward_layers_softmax `{Numerics} es : ∀ net e l,
  e ∈ es → objects net !! layer_instance e = Some l → cls l = CSoftMax →
  is_Raise (for_each Network.forward_layer net es).
Proof.
  induction es as [|e0 es IH]; intros net e l He Hl Ec.
  - by apply not_elem_of_nil in He.
  - cbn [for_each]. apply elem_of_cons in He as [<-|He].
    + unfold Network.forward_layer, Network.the_layer. rewrite Hl. simpl.
      destruct (Network._get_blobs net (input_blobs e)); simpl; [|done].
      destruct (Network._get_blobs net (output_blobs e)); simpl; [|done].
      unfold layer_forward. by rewrite Ec.
    + destruct (Network.forward_layer net e0) as [net1|] eqn:E1; simpl; [|done].
      apply forward_layer_rewrites in E1 as (_ & _ & _ & Ho & _).
      apply (IH net1 e l); [done|by rewrite Ho|done].
Qed.

(** X5: The softmax layer cannot be used: its [setup] raises on every input
    (AssertionError unless it is given one bottom and one top, AttributeError
    otherwise) and its [forward] raises AttributeError; hence [setup] and
    [forward1] of a network raise as soon as one entry is a softmax layer. *)
Theorem softmax_raises `{Numerics} :
  (∀ l h bottom top,
     SoftMax.setup l h bottom top
       = Raise (if bool_decide (length bottom = 1 ∧ length top = 1)
                then AttributeError else AssertionError) ∧
     SoftMax.forward l h bottom top = Raise AttributeError) ∧
  (∀ net kwargs e l,
     e ∈ _layers net → objects net !! layer_instance e = Some l → cls l = CSoftMax →
     is_Raise (Network.setup net kwargs) ∧ is_Raise (Network.forward1 net kwargs)).
Proof.
  split.
  - intros l h bottom top. split; [|done]. unfold SoftMax.setup.
    destruct bottom as [|? [|??]], top as [|? [|??]]; simpl; try done;
      rewrite bool_decide_eq_false_2; try done; intros [??]; simplify_eq/=.
  - intros net kwargs e l He Hl Ec. split.
    + unfold Network.setup.
      pose proof (setup_layers_softmax (_layers (foldl Network.seed_blob net kwargs))
                    (foldl Network.seed_blob net kwargs) e l) as Hr.
      destruct (seed_blobs_calls kwargs net) as [_ El].
      rewrite El, seed_blobs_objects in Hr. specialize (Hr He Hl Ec). rewrite El.
      by destruct (for_each Network.setup_layer _ _).
    + unfold Network.forward1.
      destruct (for_each (Network.overwrite (_blobs net)) (arrays net) kwargs); simpl; [|done].
      by apply (forward_layers_softmax (_layers net) _ e l).
Qed.

Lemma softmax_raises_witness :
  is_Raise (Network.setup (chain2 "a" "b" sample_relu (mkLayer CSoftMax ∅ ∅ ∅))
              [("x", np.vector [1; 2]%Z)]) ∧
  is_Raise (Network.forward1 (H := sample_numerics)
              (chain2 "a" "b" sample_relu (mkLayer CSoftMax ∅ ∅ ∅))
              [("x", np.vector [1; 2]%Z)]).
Proof.
  destruct (softmax_raises (H := sample_numerics)) as [_ Hnet].
  apply (Hnet (chain2 "a" "b" sample_relu (mkLayer CSoftMax ∅ ∅ ∅))
           [("x", np.vector [1; 2]%Z)] (mkEntry "b" 1 ["y"] ["z"]) (mkLayer CSoftMax ∅ ∅ ∅)).
  - vm_compute. right. left.
  - reflexivity.
  - reflexivity.
Defined.

(** ** The affine layer *)






(** On this sample the two rows of the input are summed into the one
    output: 1 + 2 + 3 + 4 + 5. *)
Example InnerProduct_forward_sample :
  InnerProduct.forward sample_affine22 affine22_heap [0] [1]
  = Ok (sample_affine22, [sample_x22; Array [1] [15]%Z]).
Proof. by vm_compute. Qed.





Lemma InnerProduct_setup_distinct (l : Layer) (h : list ndarray) (b t : nat)
    (x y0 : ndarray) (out : list nat) :
  h !! b = Some x → h !! t = Some y0 → b ≠ t →
  BaseLayer.getattr l "output_shape" ≫= py_shape = Ok out →
  InnerProduct.setup l h [b] [t]
  = Ok (mkLayer (cls l) (attrs l)
          (<["b" := np.zeros out]> (<["w" := np.zeros (shape x ++ out)]> (grad_ l)))
          (<["b" := np.zeros out]> (<["w" := np.zeros (shape x ++ out)]> (prms_ l))),
        heap.write h t (np.resize y0 out)).
Proof.
  intros Hb Ht Hne Ho. unfold InnerProduct.setup. rewrite Ho. simpl.
  rewrite (read_Some _ _ _ Ht). simpl.
  rewrite (read_Some (heap.write h t (np.resize y0 out)) b x)
    by (by rewrite lookup_write_ne). done.
Qed.



(** X8: [setup] accepts an input of one axis, but [forward] then raises
    IndexError: [np.tensordot] sums over the last two axes of the input. *)
Theorem InnerProduct_one_axis_input (l : Layer) (h : list ndarray) (b t : nat)
    (x y0 : ndarray) (n : nat) (out : list nat) :
  h !! b = Some x → h !! t = Some y0 → b ≠ t → shape x = [n] →
  BaseLayer.getattr l "output_shape" ≫= py_shape = Ok out →
  ∃ l' h1,
    InnerProduct.setup l h [b] [t] = Ok (l', h1) ∧
    prms_ l' !! "w" = Some (np.zeros (n :: out)) ∧
    InnerProduct.forward l' h1 [b] [t] = Raise IndexError.
Proof.
  intros Hb Ht Hne Hsx Ho.
  eexists _, _. split; [by eapply InnerProduct_setup_distinct|].
  rewrite Hsx. simpl. split.
  - by rewrite lookup_insert_ne, lookup_insert_eq.
  - unfold InnerProduct.forward, InnerProduct.item. simpl.
    rewrite (read_Some _ b x) by (by rewrite lookup_write_ne). simpl.
    rewrite (lookup_insert_ne _ "b" "w"), (lookup_insert_eq _ "w") by done. simpl.
    unfold np.tensordot. rewrite Hsx. done.
Qed.

Lemma InnerProduct_one_axis_input_witness :
  ∃ l' h1,
    InnerProduct.setup (or_else (new_layer CInnerProduct [("output_shape", PyNum 3)])
                          sample_affine)
      [np.vector [1; 2]%Z; np.empty0] [0] [1] = Ok (l', h1) ∧
    prms_ l' !! "w" = Some (np.zeros [2; 3]) ∧
    InnerProduct.forward l' h1 [0] [1] = Raise IndexError.
Proof.
  apply (InnerProduct_one_axis_input
           (or_else (new_layer CInnerProduct [("output_shape", PyNum 3)]) sample_affine)
           [np.vector [1; 2]%Z; np.empty0] 0 1 (np.vector [1; 2]%Z) np.empty0 2 [3]);
    try reflexivity. lia.
Defined.

Lemma assign_compat x v :
  np.ndim v ≤ np.ndim x →
  np.dims_compat (replicate (np.ndim x - np.ndim v) 1 ++ shape v) (shape x) = true →
  is_Ok (np.assign x v).
Proof.
  destruct x as [sx dx], v as [sv dv]. unfold np.assign, np.broadcast_to, np.ndim. simpl.
  intros Hn Hc. replace (length sv - length sx) with 0 by lia. rewrite strip_ones_0.
  rewrite bool_decide_eq_true_2 by done. by rewrite Hc.
Qed.

Lemma assign_incompat x v :
  np.ndim v = np.ndim x → np.dims_compat (shape v) (shape x) = false →
  np.assign x v = Raise ValueError.
Proof.
  destruct x as [sx dx], v as [sv dv]. unfold np.assign, np.broadcast_to, np.ndim. simpl.
  intros Hn Hc. rewrite Hn, Nat.sub_diag, strip_ones_0. simpl. rewrite Hn, Nat.sub_diag. simpl. rewrite Hc.
  by case_bool_decide.
Qed.


Lemma shape_transpose a : shape (np.transpose a) = rev (shape a).
Proof. done. Qed.

Lemma dot_1_3_mismatch a b k p k' q :
  shape a = [k] → shape b = [p; k'; q] → k ≠ k' → np.dot a b = Raise ValueError.
Proof.
  intros Ha Hb Hk. unfold np.dot, np.ndim. rewrite Ha, Hb. simpl.
  by rewrite bool_decide_eq_false_2.
Qed.

Lemma dot_1_3 a b k p q :
  shape a = [k] → shape b = [p; k; q] → ∃ r, np.dot a b = Ok r ∧ shape r = [p; q].
Proof.
  intros Ha Hb. unfold np.dot, np.ndim. rewrite Ha, Hb. simpl.
  rewrite bool_decide_eq_true_2 by done. eexists. split; [done|]. done.
Qed.

Lemma dot_1_2 a b k q :
  shape a = [k] → shape b = [k; q] → ∃ r, np.dot a b = Ok r ∧ shape r = [q].
Proof.
  intros Ha Hb. unfold np.dot, np.ndim. rewrite Ha, Hb. simpl.
  rewrite bool_decide_eq_true_2 by done. eexists. split; [done|]. done.
Qed.


(** X9: [backward] of the affine layer on the state [setup] leaves for an input
    of shape (n, d) and [output_shape = (m,)], the gradients of input and
    output having the shapes of the blobs: it returns only when
    n = d = m. Otherwise [np.dot(topgrad[0], np.transpose(self.grad_['w']))]
    finds the axes of lengths m and d not aligned, or its result of shape
    (m, n) cannot be stored in the gradient of the input, and ValueError is
    raised. *)
Theorem InnerProduct_backward_shapes (l : Layer) (h : list ndarray) (b t db dt : nat)
    (x g0 dy gw gb : ndarray) (n d m : nat) :
  h !! b = Some x → h !! db = Some g0 → h !! dt = Some dy →
  db ≠ dt → db ≠ b →
  grad_ l !! "w" = Some gw → grad_ l !! "b" = Some gb →
  shape x = [n; d] → shape g0 = [n; d] → shape dy = [m] →
  shape gw = [n; d; m] → shape gb = [m] →
  (is_Ok (InnerProduct.backward l h [b] [t] [db] [dt]) ↔ n = d ∧ d = m) ∧
  (InnerProduct.backward l h [b] [t] [db] [dt] = Raise ValueError ↔ ¬ (n = d ∧ d = m)).
Proof.
  intros Hb Hdb Hdt Hn1 Hn2 Hgw Hgb Hsx Hsg Hsdy Hsgw Hsgb.
  cut ((n = d ∧ d = m → is_Ok (InnerProduct.backward l h [b] [t] [db] [dt])) ∧
       (¬ (n = d ∧ d = m)
        → InnerProduct.backward l h [b] [t] [db] [dt] = Raise ValueError)).
  { intros [Hok Herr]. destruct (decide (n = d ∧ d = m)) as [Heq|Hneq].
    - specialize (Hok Heq). split; split; try done.
      intros E. rewrite E in Hok. done.
    - specialize (Herr Hneq). split; split; try done.
      rewrite Herr. done. }
  assert (shape (np.transpose gw) = [m; d; n]) as Hst.
  { rewrite shape_transpose. by rewrite Hsgw. }
  assert (db < length h) as Hdbl by (by eapply lookup_lt_Some).
  unfold InnerProduct.backward, InnerProduct.item.
  cbn [lookup list_lookup from_option_err mbind result_bind].
  rewrite (read_Some _ _ _ Hdt), Hgw. cbn [from_option_err mbind result_bind].
  split.
  - intros [-> ->].
    destruct (dot_1_3 dy (np.transpose gw) m m m Hsdy Hst) as (g & -> & Hsg').
    cbn [mbind result_bind]. rewrite (read_Some _ _ _ Hdb). cbn [mbind result_bind].
    pose proof (assign_compat g0 g) as Ha1.
    destruct (np.assign g0 g) as [r|] eqn:Er.
    2:{ apply Ha1; unfold np.ndim; rewrite Hsg, Hsg'; simpl; [done|].
        by rewrite !dims_compat_refl || (unfold np.dim_compat;
             rewrite !bool_decide_eq_true_2 by done). }
    cbn [mbind result_bind].
    rewrite (read_Some (heap.write h db r) dt dy) by (by rewrite lookup_write_ne).
    cbn [mbind result_bind].
    rewrite (read_Some (heap.write h db r) b x) by (by rewrite lookup_write_ne).
    cbn [mbind result_bind].
    assert (shape (np.transpose dy) = [m]) as Hsdy'.
    { rewrite shape_transpose. by rewrite Hsdy. }
    destruct (dot_1_2 (np.transpose dy) x m m Hsdy' Hsx) as (p & -> & Hsp).
    cbn [mbind result_bind].
    pose proof (assign_compat gw (np.transpose p)) as Ha2.
    destruct (np.assign gw (np.transpose p)) as [gw'|] eqn:Egw.
    2:{ apply Ha2; unfold np.ndim; rewrite shape_transpose, Hsgw, Hsp; simpl; [lia|].
        unfold np.dim_compat. repeat case_bool_decide; simpl; (done || lia). }
    cbn [mbind result_bind].
    unfold np.sum0. rewrite Hsdy. cbn [mbind result_bind].
    rewrite lookup_insert_ne by done. rewrite Hgb. cbn [from_option_err mbind result_bind].
    match goal with |- context [np.assign gb ?s] =>
      pose proof (assign_compat gb s) as Ha3; destruct (np.assign gb s) eqn:Egb end.
    + done.
    + apply Ha3; unfold np.ndim; rewrite Hsgb; simpl; [lia|].
      unfold np.dim_compat. repeat case_bool_decide; simpl; (done || lia).
  - intros Hne. destruct (decide (m = d)) as [->|Hmd].
    + destruct (dot_1_3 dy (np.transpose gw) d d n Hsdy Hst) as (g & -> & Hsg').
      cbn [mbind result_bind]. rewrite (read_Some _ _ _ Hdb). cbn [mbind result_bind].
      rewrite (assign_incompat g0 g); [done|unfold np.ndim; by rewrite Hsg, Hsg'|].
      rewrite Hsg, Hsg'. simpl. unfold np.dim_compat.
      rewrite andb_true_r.
      apply andb_false_iff.
      destruct (decide (d = 1)) as [->|Hd1].
      * right. apply orb_false_iff. split; apply bool_decide_eq_false_2; lia.
      * left. apply orb_false_iff. split; apply bool_decide_eq_false_2; [lia|done].
    + by rewrite (dot_1_3_mismatch dy (np.transpose gw) m m d n Hsdy Hst Hmd).
Qed.

Lemma InnerProduct_backward_shapes_witness :
  (is_Ok (InnerProduct.backward affine221_ready.1 affine221_ready.2 [0] [1] [2] [3])
   ↔ 2 = 2 ∧ 2 = 1) ∧
  (InnerProduct.backward affine221_ready.1 affine221_ready.2 [0] [1] [2] [3]
   = Raise ValueError ↔ ¬ (2 = 2 ∧ 2 = 1)).
Proof.
  apply (InnerProduct_backward_shapes affine221_ready.1 affine221_ready.2 0 1 2 3
           sample_x22 (np.zeros [2; 2]) (Array [1] [3%Z])
           (np.zeros [2; 2; 1]) (np.zeros [1]) 2 2 1);
    try (vm_compute; reflexivity); lia.
Defined.

(** ** The sigmoid layer *)




Lemma length_indices s : length (np.indices s) = np.size_of s.
Proof.
  rewrite <- (length_fmap (np.ravel_index 0 s)), ravel_indices. apply length_seq.
Qed.







(** ** Aggregation over layers of distinct names *)

Section distinct_names.
Context {V : Type} (net : Network).
Variable step : gmap string V → LayerEntry → result (gmap string V).
Variable f : Layer → result V.

(** The first occurrence of a name binds it to what the accessor of the
    layer returns. *)
Hypothesis step_fresh : ∀ r e l, Network.the_layer net e = Ok l → r !! layer_name e = None →
  step r e = (v ← f l; Ok (<[layer_name e := v]> r)).

Lemma aggregate_distinct es r :
  layers_alive net → es ⊆ _layers net → NoDup (layer_name <$> es) →
  (∀ e, e ∈ es → r !! layer_name e = None) →
  (∀ e l, e ∈ es → objects net !! layer_instance e = Some l → is_Ok (f l)) →
  ∃ r', for_each step r es = Ok r' ∧
        (∀ n, n ∉ layer_name <$> es → r' !! n = r !! n) ∧
        (∀ n, n ∈ layer_name <$> es → is_Some (r' !! n)) ∧
        (∀ e l, e ∈ es → objects net !! layer_instance e = Some l →
                ∃ v, f l = Ok v ∧ r' !! layer_name e = Some v).
Proof using step_fresh.
  intros Ha. revert r. induction es as [|e es IH]; intros r Hsub Hnd Hr Hok.
  - exists r. split_and!; [done|done| |].
    + intros n Hn. by apply not_elem_of_nil in Hn.
    + intros e l He. by apply not_elem_of_nil in He.
  - rewrite fmap_cons, NoDup_cons in Hnd. destruct Hnd as [Hn Hnd].
    assert (e ∈ _layers net) as He by (apply Hsub; left).
    destruct (the_layer_alive net e Ha He) as [l Hl].
    assert (objects net !! layer_instance e = Some l) as Hl'.
    { unfold Network.the_layer in Hl. by destruct (objects net !! layer_instance e);
        simplify_eq/=. }
    assert (is_Ok (f l)) as Hv by (apply (Hok e); [left|done]).
    destruct (f l) as [v|] eqn:Ef; [|done].
    cbn [for_each]. rewrite (step_fresh r e l Hl) by (apply Hr; left).
    rewrite Ef. cbn [mbind result_bind].
    destruct (IH (<[layer_name e := v]> r)) as (r' & E & Hout & Hdom & Hin).
    + intros x Hx. apply Hsub. by right.
    + done.
    + intros e' He'. rewrite lookup_insert_ne; [apply Hr; by right|].
      intros Heq. apply Hn. rewrite Heq. by apply list_elem_of_fmap_2.
    + intros e' l' He'. apply Hok. by right.
    + exists r'. split_and!; [done| | |].
      * intros n Hn'. apply not_elem_of_cons in Hn' as [? ?].
        rewrite Hout by done. by rewrite lookup_insert_ne.
      * intros n Hn'. apply elem_of_cons in Hn' as [->|Hn']; [|by apply Hdom].
        rewrite Hout by done. rewrite lookup_insert_eq. eauto.
      * intros e' l' He' Hl''. apply elem_of_cons in He' as [->|He']; [|by eapply Hin].
        exists v. rewrite Hout by done. rewrite lookup_insert_eq.
        split; [|done]. congruence.
Qed.

End distinct_names.

(** X11: [Network.gradient] returns exactly when no name is registered twice;
    the dictionary it returns then has the registered names as keys, and
    binds the name of every entry to the gradient dictionary of its
    layer. *)
Theorem gradient_distinct_names (net : Network) :
  layers_alive net →
  (is_Ok (Network.gradient net) ↔ NoDup (layer_name <$> _layers net)) ∧
  (∀ r, Network.gradient net = Ok r →
     (∀ n, is_Some (r !! n) ↔ n ∈ layer_name <$> _layers net) ∧
     (∀ e l, e ∈ _layers net → objects net !! layer_instance e = Some l →
             r !! layer_name e = Some (grad_ l))).
Proof.
  intros Ha.
  assert (NoDup (layer_name <$> _layers net) →
          ∃ r, Network.gradient net = Ok r ∧
               (∀ n, is_Some (r !! n) ↔ n ∈ layer_name <$> _layers net) ∧
               (∀ e l, e ∈ _layers net → objects net !! layer_instance e = Some l →
                       r !! layer_name e = Some (grad_ l))) as Hd.
  { intros Hnd.
    destruct (aggregate_distinct net (Network.gradient_step net) (fun l => Ok (grad_ l)))
      with (es := _layers net) (r := (∅ : gmap string (gmap string ndarray)))
      as (r & E & Hout & Hdom & Hin); try done.
    - intros r e l Hl Hr. unfold Network.gradient_step. rewrite Hl. simpl. by rewrite Hr.
    - exists r. split_and!; [done| |].
      + intros n. split; [|by apply Hdom].
        intros Hn. destruct (decide (n ∈ layer_name <$> _layers net)) as [|Hni]; [done|].
        rewrite (Hout n Hni), lookup_empty in Hn. by destruct Hn.
      + intros e l He Hl. destruct (Hin e l He Hl) as (v & Hv & ->). congruence. }
  split.
  - split.
    + intros Hok. destruct (decide (NoDup (layer_name <$> _layers net))) as [|Hnd]; [done|].
      rewrite (gradient_raises net Ha Hnd) in Hok. done.
    + intros Hnd. destruct (Hd Hnd) as (r & -> & _). done.
  - intros r E.
    destruct (decide (NoDup (layer_name <$> _layers net))) as [Hnd|Hnd].
    + destruct (Hd Hnd) as (r' & E' & H1 & H2). rewrite E in E'. by injection E' as <-.
    + rewrite (gradient_raises net Ha Hnd) in E. done.
Qed.

Lemma gradient_distinct_names_witness :
  (is_Ok (Network.gradient (chain2 "a" "b" sample_w1 sample_b))
   ↔ NoDup (layer_name <$> _layers (chain2 "a" "b" sample_w1 sample_b))) ∧
  (∀ r, Network.gradient (chain2 "a" "b" sample_w1 sample_b) = Ok r →
     (∀ n, is_Some (r !! n)
           ↔ n ∈ layer_name <$> _layers (chain2 "a" "b" sample_w1 sample_b)) ∧
     (∀ e l, e ∈ _layers (chain2 "a" "b" sample_w1 sample_b) →
             objects (chain2 "a" "b" sample_w1 sample_b) !! layer_instance e = Some l →
             r !! layer_name e = Some (grad_ l))).
Proof.
  apply (gradient_distinct_names (chain2 "a" "b" sample_w1 sample_b)).
  apply (bool_decide_unpack _). vm_compute. exact I.
Defined.

Lemma flat_parameters_ndim l v : BaseLayer.flat_parameters l = Ok v → np.ndim v = 1.
Proof.
  unfold BaseLayer.flat_parameters. case_bool_decide; [by intros [= <-]|].
  unfold np.concatenate. destruct (np.ravel <$> _) eqn:E; [done|].
  destruct (forallb _ _); [|done]. by intros [= <-].
Qed.

(** X12: [Network.flat_parameters] of a network with layers of pairwise
    distinct names is the concatenation of the flat parameters of the
    layers, in the lexicographic order of the layer names (not in the order
    of registration); without layers it raises ValueError
    ([np.concatenate] of an empty list). *)
Theorem flat_parameters_distinct_names (net : Network) :
  layers_alive net → NoDup (layer_name <$> _layers net) →
  ∃ r : gmap string ndarray,
    (∀ n, is_Some (r !! n) ↔ n ∈ layer_name <$> _layers net) ∧
    (∀ e l, e ∈ _layers net → objects net !! layer_instance e = Some l →
            ∃ v, BaseLayer.flat_parameters l = Ok v ∧ r !! layer_name e = Some v) ∧
    Network.flat_parameters net
      = match _layers net with
        | [] => Raise ValueError
        | _ => Ok (np.vector (concat (data <$> omap (fun n => r !! n) (sorted r))))
        end.
Proof.
  intros Ha Hnd.
  destruct (aggregate_distinct net (Network.flat_parameters_step net) BaseLayer.flat_parameters)
    with (es := _layers net) (r := (∅ : gmap string ndarray))
    as (r & E & Hout & Hdom & Hin); try done.
  { intros r e l Hl Hr. unfold Network.flat_parameters_step. rewrite Hl. simpl.
    by rewrite Hr. }
  { intros e l _ _. by destruct (flat_parameters_returns l) as [v ->]. }
  assert (∀ n, is_Some (r !! n) ↔ n ∈ layer_name <$> _layers net) as Hkeys.
  { intros n. split; [|by apply Hdom].
    intros Hn. destruct (decide (n ∈ layer_name <$> _layers net)) as [|Hni]; [done|].
    rewrite (Hout n Hni), lookup_empty in Hn. by destruct Hn. }
  exists r. split_and!; [done|done|].
  unfold Network.flat_parameters. rewrite E. cbn [mbind result_bind].
  unfold BaseLayer.in_sorted_order, np.concatenate.
  destruct (_layers net) as [|e0 es0] eqn:El.
  { injection E as <-. by rewrite sorted_empty. }
  rewrite <- El in *.
  destruct (omap (fun n => r !! n) (sorted r)) as [|a0 l0] eqn:Eo.
  { exfalso.
    assert (layer_name e0 ∈ sorted r) as Hs.
    { apply elem_of_sorted, Hkeys. rewrite El, fmap_cons. left. }
    destruct (sorted r) as [|k ks] eqn:Es; [by apply not_elem_of_nil in Hs|].
    assert (is_Some (r !! k)) as [a Hk] by (apply elem_of_sorted; rewrite Es; left).
    csimpl in Eo. by rewrite Hk in Eo. }
  rewrite <- Eo.
  assert (forallb (fun a => bool_decide (np.ndim a = 1)) (omap (fun n => r !! n) (sorted r))
          = true) as ->; [|done].
  apply forallb_forall. intros a Hx%list_elem_of_In.
  apply list_elem_of_omap in Hx as (n & _ & Hn).
  assert (n ∈ layer_name <$> _layers net) as Hn' by (apply Hkeys; eauto).
  apply list_elem_of_fmap in Hn' as (e & -> & He).
  destruct (the_layer_alive net e Ha He) as [l Hl].
  assert (objects net !! layer_instance e = Some l) as Hl'.
  { unfold Network.the_layer in Hl. by destruct (objects net !! layer_instance e);
      simplify_eq/=. }
  destruct (Hin e l He Hl') as (v & Hv & Hrv).
  apply bool_decide_eq_true_2. apply (flat_parameters_ndim l). congruence.
Qed.

Lemma flat_parameters_distinct_names_witness :
  ∃ r : gmap string ndarray,
    (∀ n, is_Some (r !! n)
          ↔ n ∈ layer_name <$> _layers (chain2 "b" "a" sample_w1 sample_b)) ∧
    (∀ e l, e ∈ _layers (chain2 "b" "a" sample_w1 sample_b) →
            objects (chain2 "b" "a" sample_w1 sample_b) !! layer_instance e = Some l →
            ∃ v, BaseLayer.flat_parameters l = Ok v ∧ r !! layer_name e = Some v) ∧
    Network.flat_parameters (chain2 "b" "a" sample_w1 sample_b)
      = match _layers (chain2 "b" "a" sample_w1 sample_b) with
        | [] => Raise ValueError
        | _ => Ok (np.vector (concat (data <$> omap (fun n => r !! n) (sorted r))))
        end.
Proof.
  apply (flat_parameters_distinct_names (chain2 "b" "a" sample_w1 sample_b)).
  - apply (bool_decide_unpack _). vm_compute. exact I.
  - apply (bool_decide_unpack _). vm_compute. exact I.
Defined.

(** The layer registered second, under the smaller name, comes first. *)
Example flat_parameters_by_name :
  Network.flat_parameters (chain2 "b" "a" sample_w1 sample_b)
  = Ok (np.vector [5; 1; 2]%Z).
Proof. by vm_compute. Qed.

(** Without layers there is nothing to concatenate. *)
Example flat_parameters_without_layers :
  Network.flat_parameters Network.__init__ = Raise ValueError ∧
  Network.flat_gradient Network.__init__ = Raise ValueError ∧
  Network.parameters Network.__init__ = Ok ∅ ∧ Network.gradient Network.__init__ = Ok ∅.
Proof. split_and!; reflexivity. Qed.

(** ** What the passes leave alone *)

(** X13: A forward pass writes into blobs only: the diffs keep their values
    when no array is both a blob and a diff, and so do the arrays of the
    snapshots or any other array that is no blob. *)
Theorem forward1_keeps_diffs `{Numerics} (net net' : Network)
    (kwargs : list (string * ndarray)) :
  Network.forward1 net kwargs = Ok net' → separate_storage net →
  (∀ n, Network.diff net' n = Network.diff net n) ∧
  length (arrays net') = length (arrays net) ∧
  (∀ a, ¬ is_blob net a → arrays net' !! a = arrays net !! a).
Proof.
  intros E Hsep. apply forward1_rewrites in E as (Hb & Hd & _ & _ & _ & Hlen & Hf).
  split_and!; [|done|done].
  intros n. unfold Network.diff. rewrite Hd.
  destruct (_diffs net !! n) as [a|] eqn:En; [|done]. simpl.
  apply Hf. intros [m Hm]. by apply (Hsep n a En m a Hm).
Qed.

Lemma forward1_keeps_diffs_witness :
  (∀ n, Network.diff chain3_forward n = Network.diff chain3_pushed n) ∧
  length (arrays chain3_forward) = length (arrays chain3_pushed) ∧
  (∀ a, ¬ is_blob chain3_pushed a →
        arrays chain3_forward !! a = arrays chain3_pushed !! a).
Proof.
  apply (forward1_keeps_diffs (H := sample_numerics) chain3_pushed chain3_forward
           [("x", np.vector [5; -6; 7]%Z)]).
  - vm_compute. reflexivity.
  - apply (bool_decide_unpack _). vm_compute. exact I.
Defined.

Lemma backward_loop_writes_only
    (f : list ndarray → nat * (nat * (nat * nat)) → result (list ndarray))
    bottom top botgrad topgrad h h' :
  (∀ s b t db dt s', f s (b, (t, (db, dt))) = Ok s' → ∃ r, s' = heap.write s db r) →
  for_each f h (zip bottom (zip top (zip botgrad topgrad))) = Ok h' →
  writes_only botgrad h h'.
Proof.
  intros Hf. apply (for_each_inv (writes_only botgrad h)); [|done].
  intros s [b [t [db dt]]] s' Hin Hs E. apply Hf in E as [r ->].
  apply writes_only_write; [done|].
  apply elem_of_zip_r, elem_of_zip_r, elem_of_zip_l in Hin. done.
Qed.

Lemma layer_backward_writes_botgrad l h bottom top botgrad topgrad l' h' :
  layer_backward l h bottom top botgrad topgrad = Ok (l', h') →
  writes_only botgrad h h' ∧ cls l' = cls l ∧ attrs l' = attrs l ∧ prms_ l' = prms_ l.
Proof.
  unfold layer_backward. destruct (cls l) eqn:Ec.
  - by intros [= <- <-].
  - unfold ReLU.backward. intros E. apply bind_Ok in E as (h1 & E & [= <- <-]).
    split; [|done]. eapply backward_loop_writes_only; [|done].
    intros s b t db dt s' E'. bind_inv E'. injection E' as <-. eauto.
  - unfold Sigmoid.backward. intros E. apply bind_Ok in E as (h1 & E & [= <- <-]).
    split; [|done]. eapply backward_loop_writes_only; [|done].
    intros s b t db dt s' E'. bind_inv E'. injection E' as <-. eauto.
  - unfold InnerProduct.backward. intros E. bind_inv E. injection E as <- <-.
    split; [|done]. apply writes_only_write; [done|].
    destruct (botgrad !! 0) eqn:Et; simplify_eq/=. by eapply list_elem_of_lookup_2.
  - by intros [= <- <-].
Qed.

Lemma lookups_is_diff net ns : ∀ botgrad,
  Network._get_diffs net ns = Ok botgrad → ∀ t, t ∈ botgrad → is_diff net t.
Proof.
  unfold Network._get_diffs.
  induction ns as [|n ns IH]; intros top E; simpl in E.
  - injection E as <-. intros t Ht. by apply not_elem_of_nil in Ht.
  - apply bind_Ok in E as (a & Ea & E). apply bind_Ok in E as (k & Ek & [= <-]).
    intros t [->|Ht]%elem_of_cons; [|by eapply IH].
    exists n. unfold Network.lookup in Ea. by destruct (_diffs net !! n); simplify_eq/=.
Qed.

Lemma diffs_rewritten_refl net : diffs_rewritten net net.
Proof. unfold diffs_rewritten. split_and!; try done. intros i l Hl. by exists l. Qed.

Lemma diffs_rewritten_trans net1 net2 net3 :
  diffs_rewritten net1 net2 → diffs_rewritten net2 net3 → diffs_rewritten net1 net3.
Proof.
  intros (Hb & Hd & Hh & Hl & Hn & Hno & Hf & Ho) (Hb' & Hd' & Hh' & Hl' & Hn' & Hno' & Hf' & Ho').
  unfold diffs_rewritten. split_and!; try congruence.
  - intros a Ha. rewrite Hf', Hf; [done|done|]. unfold is_diff. by rewrite Hd.
  - intros i l Hi. destruct (Ho i l Hi) as (l1 & Hi1 & ? & ? & ?).
    destruct (Ho' i l1 Hi1) as (l2 & Hi2 & ? & ? & ?).
    exists l2. split_and!; congruence.
Qed.

Lemma backward_layer_rewrites net e net' :
  Network.backward_layer net e = Ok net' → diffs_rewritten net net'.
Proof.
  unfold Network.backward_layer. intros E.
  apply bind_Ok in E as (l & El & E). apply bind_Ok in E as (bottom & Eb & E).
  apply bind_Ok in E as (top & Et & E). apply bind_Ok in E as (botgrad & Edb & E).
  apply bind_Ok in E as (topgrad & Edt & E).
  apply bind_Ok in E as ([l' h'] & Ef & [= <-]).
  apply layer_backward_writes_botgrad in Ef as ([Hlen Hf] & Hc & Hat & Hp).
  unfold Network.the_layer in El.
  destruct (objects net !! layer_instance e) eqn:Eo; simplify_eq/=.
  unfold diffs_rewritten. simpl. split_and!; try done.
  - by rewrite length_insert.
  - intros a Ha. apply Hf. intros Hin. apply Ha. by apply (lookups_is_diff net _ botgrad Edb).
  - intros i l0 Hi. destruct (decide (i = layer_instance e)) as [->|Hne].
    + exists l'. rewrite list_lookup_insert_eq by apply (lookup_lt_Some _ _ _ Hi).
      split_and!; congruence.
    + exists l0. by rewrite list_lookup_insert_ne.
Qed.

Lemma backward_layers_rewrite es : ∀ net net',
  for_each Network.backward_layer net es = Ok net' → diffs_rewritten net net'.
Proof.
  induction es as [|e es IH]; intros net net' E.
  - injection E as <-. apply diffs_rewritten_refl.
  - cbn [for_each] in E. apply bind_Ok in E as (net1 & E1 & E).
    eapply diffs_rewritten_trans; [by eapply backward_layer_rewrites|by apply IH].
Qed.

Lemma backward1_rewrites net kwargs net' :
  Network.backward1 net kwargs = Ok net' → diffs_rewritten net net'.
Proof.
  unfold Network.backward1. intros E. apply bind_Ok in E as (h & Eh & E).
  apply backward_layers_rewrite in E.
  eapply diffs_rewritten_trans; [|done].
  unfold diffs_rewritten. simpl. split_and!; try done.
  - by eapply overwrite_length.
  - intros a Ha. eapply overwrite_other; [done|].
    intros n _ Hn. apply Ha. by exists n.
  - intros i l Hl. by exists l.
Qed.

(** X14: A backward pass writes into diffs only, and into the gradients of the
    layers: every blob keeps its value when no array is both a blob and a
    diff; every layer object keeps its class, its options and its
    parameters; the dictionaries and the history are as before. *)
Theorem backward1_keeps_blobs (net net' : Network) (kwargs : list (string * ndarray)) :
  Network.backward1 net kwargs = Ok net' → separate_storage net →
  (∀ n, Network.blob net' n = Network.blob net n) ∧
  (∀ a, ¬ is_diff net a → arrays net' !! a = arrays net !! a) ∧
  (∀ i l, objects net !! i = Some l →
     ∃ l', objects net' !! i = Some l' ∧
           cls l' = cls l ∧ attrs l' = attrs l ∧ prms_ l' = prms_ l) ∧
  _blobs net' = _blobs net ∧ _diffs net' = _diffs net ∧
  _blob_history net' = _blob_history net.
Proof.
  intros E Hsep. apply backward1_rewrites in E as (Hb & Hd & Hh & _ & _ & _ & Hf & Ho).
  split_and!; try done.
  intros n. unfold Network.blob. rewrite Hb.
  destruct (_blobs net !! n) as [a|] eqn:En; [|done]. simpl.
  apply Hf. intros [m Hm]. by apply (Hsep m a Hm n a En).
Qed.

Lemma backward1_keeps_blobs_witness :
  (∀ n, Network.blob chain3_back n = Network.blob chain3_ready n) ∧
  (∀ a, ¬ is_diff chain3_ready a → arrays chain3_back !! a = arrays chain3_ready !! a) ∧
  (∀ i l, objects chain3_ready !! i = Some l →
     ∃ l', objects chain3_back !! i = Some l' ∧
           cls l' = cls l ∧ attrs l' = attrs l ∧ prms_ l' = prms_ l) ∧
  _blobs chain3_back = _blobs chain3_ready ∧ _diffs chain3_back = _diffs chain3_ready ∧
  _blob_history chain3_back = _blob_history chain3_ready.
Proof.
  apply (backward1_keeps_blobs chain3_ready chain3_back [("w", np.vector [1; 1; 1]%Z)]).
  - vm_compute. reflexivity.
  - apply (bool_decide_unpack _). vm_compute. exact I.
Defined.

(** ** The storage [setup] leaves *)

Lemma alloc_blob_storage (d : gmap string nat) (h : list ndarray) n v :
  map_Forall (fun _ a => a < length h) d → injective d →
  map_Forall (fun _ a => a < length (h ++ [v])) (<[n := length h]> d) ∧
  injective (<[n := length h]> d).
Proof.
  intros Ha Hi. split.
  - apply map_Forall_insert_2.
    + rewrite length_app. simpl. lia.
    + intros k a Hk. specialize (Ha k a Hk). simpl in Ha. rewrite length_app. simpl. lia.
  - intros n1 n2 a. rewrite !lookup_insert. repeat case_decide; subst; try done.
    + intros [= <-] H2. specialize (Ha n2 _ H2). simpl in Ha. lia.
    + intros H1 [= <-]. specialize (Ha n1 _ H1). simpl in Ha. lia.
    + apply Hi.
Qed.

Lemma seed_blobs_storage kw : ∀ net,
  blobs_alive net → injective (_blobs net) →
  blobs_alive (foldl Network.seed_blob net kw) ∧
  injective (_blobs (foldl Network.seed_blob net kw)).
Proof.
  induction kw as [|[n v] kw IH]; intros net Ha Hi; [done|]. simpl.
  destruct (alloc_blob_storage (_blobs net) (arrays net) n (np.scale 0 v) Ha Hi).
  by apply IH.
Qed.

Lemma placeholders_storage ss : ∀ net,
  blobs_alive net → injective (_blobs net) →
  blobs_alive (foldl Network.placeholder net ss) ∧
  injective (_blobs (foldl Network.placeholder net ss)).
Proof.
  induction ss as [|s ss IH]; intros net Ha Hi; [done|]. simpl.
  apply IH; unfold Network.placeholder; destruct (_blobs net !! s); try done; simpl;
    by destruct (alloc_blob_storage (_blobs net) (arrays net) s np.empty0 Ha Hi).
Qed.

Lemma resize_tops_length h bottom top h' :
  resize_tops h bottom top = Ok h' → length h' = length h.
Proof.
  unfold resize_tops. intros E.
  apply (pairwise_loop_writes_only _ bottom top h h') in E as [Hl _]; [done|].
  intros s b t s' E'. bind_inv E'. injection E' as <-. eauto.
Qed.

Lemma layer_setup_length l h bottom top l' h' :
  layer_setup l h bottom top = Ok (l', h') → length h' = length h.
Proof.
  unfold layer_setup.
  destruct (cls l); unfold BaseLayer.setup, ReLU.setup, Sigmoid.setup,
    InnerProduct.setup, SoftMax.setup; intros E.
  - by injection E as _ <-.
  - apply bind_Ok in E as (h1 & E & [= _ <-]). by eapply resize_tops_length.
  - apply bind_Ok in E as (h1 & E & [= _ <-]). by eapply resize_tops_length.
  - destruct bottom as [|? [|??]], top as [|? [|??]]; try done.
    bind_inv E. injection E as _ <-. apply length_write.
  - by destruct bottom as [|? [|??]], top as [|? [|??]].
Qed.

Lemma setup_layers_storage es : ∀ net net',
  for_each Network.setup_layer net es = Ok net' →
  blobs_alive net → injective (_blobs net) →
  blobs_alive net' ∧ injective (_blobs net').
Proof.
  induction es as [|e es IH]; intros net net' E Ha Hi.
  - by injection E as <-.
  - cbn [for_each] in E. apply bind_Ok in E as (net1 & E1 & E).
    apply (IH net1 net' E).
    + unfold Network.setup_layer in E1.
      destruct (placeholders_storage (input_blobs e ++ output_blobs e) net Ha Hi) as [Ha1 _].
      apply bind_Ok in E1 as (l & _ & E1). apply bind_Ok in E1 as (bottom & _ & E1).
      apply bind_Ok in E1 as (top & _ & E1). apply bind_Ok in E1 as ([l1 h1] & Es & E1).
      injection E1 as <-. apply layer_setup_length in Es.
      unfold blobs_alive in *. simpl in *. by rewrite Es.
    + unfold Network.setup_layer in E1.
      destruct (placeholders_storage (input_blobs e ++ output_blobs e) net Ha Hi) as [_ Hi1].
      bind_inv E1. by injection E1 as <-.
Qed.

Lemma make_diffs_fresh l : ∀ net net',
  for_each Network.make_diff net l = Ok net' → NoDup l.*1 →
  _blobs net' = _blobs net ∧
  length (arrays net) ≤ length (arrays net') ∧
  (∀ n, n ∉ l.*1 → _diffs net' !! n = _diffs net !! n) ∧
  (∀ n, n ∈ l.*1 →
     ∃ a, _diffs net' !! n = Some a ∧ length (arrays net) ≤ a < length (arrays net')) ∧
  (∀ n1 n2 a, n1 ∈ l.*1 → n2 ∈ l.*1 →
     _diffs net' !! n1 = Some a → _diffs net' !! n2 = Some a → n1 = n2).
Proof.
  induction l as [|[n0 a0] l IH]; intros net net' H Hnd.
  - injection H as <-. split_and!; try done.
    + intros n Hn. by apply not_elem_of_nil in Hn.
    + intros n1 n2 a Hn. by apply not_elem_of_nil in Hn.
  - rewrite fmap_cons in Hnd. apply NoDup_cons in Hnd as [Hn0 Hnd].
    cbn [for_each] in H. apply bind_Ok in H as (net1 & H1 & H).
    apply make_diff_spec in H1 as (b & Hb & Ha & Hd & Hbl). simpl in *.
    destruct (IH net1 net' H Hnd) as (Hbl' & Hlen & Hout & Hin & Hinj).
    rewrite Ha, length_app in Hlen, Hin. simpl in Hlen, Hin.
    assert (_diffs net' !! n0 = Some (length (arrays net))) as H0.
    { rewrite Hout by done. rewrite Hd. by rewrite lookup_insert_eq. }
    split_and!.
    + congruence.
    + lia.
    + intros n [Hne Hn]%not_elem_of_cons. rewrite Hout by done. rewrite Hd.
      by rewrite lookup_insert_ne.
    + intros n [->|Hn]%elem_of_cons.
      * exists (length (arrays net)). split; [done|lia].
      * destruct (Hin n Hn) as (a & ? & ?). exists a. split; [done|lia].
    + intros n1 n2 a [->|Hn1]%elem_of_cons [->|Hn2]%elem_of_cons H1 H2.
      * done.
      * destruct (Hin n2 Hn2) as (a2 & ? & ?). simplify_eq. lia.
      * destruct (Hin n1 Hn1) as (a1 & ? & ?). simplify_eq. lia.
      * by eapply Hinj.
Qed.

(** X15: [setup] on a network whose blobs are alive, no two of them sharing an
    array, and whose diffs (if any) are named like blobs: the blobs are
    still alive and stored apart from one another; the names of the diffs
    are those of the blobs; every diff has an array of its own, and no
    array is both a blob and a diff. *)
Theorem setup_storage (net net' : Network) (kwargs : list (string * ndarray)) :
  Network.setup net kwargs = Ok net' →
  blobs_alive net → injective (_blobs net) →
  (∀ n, is_Some (_diffs net !! n) → is_Some (_blobs net !! n)) →
  blobs_alive net' ∧ injective (_blobs net') ∧ injective (_diffs net') ∧
  separate_storage net' ∧
  (∀ n, is_Some (_diffs net' !! n) ↔ is_Some (_blobs net' !! n)).
Proof.
  unfold Network.setup. intros H Ha Hi Hdk.
  apply bind_Ok in H as (net2 & H2 & H).
  destruct (seed_blobs_storage kwargs net Ha Hi) as [Ha1 Hi1].
  destruct (seed_blobs_grows kwargs net) as [[Hl1 Hg1] _].
  destruct (seed_blobs_calls kwargs net) as [_ Hl1'].
  pose proof H2 as H2'. rewrite Hl1' in H2'.
  assert (_diffs (foldl Network.seed_blob net kwargs) = _diffs net) as Hd1.
  { clear. revert net. induction kwargs as [|kv kw IH]; intros net; [done|]. simpl.
    by rewrite IH. }
  apply setup_layers_grows in H2 as [[Hl2 Hg2] _].
  assert (_diffs net2 = _diffs net) as Hd2.
  { rewrite <- Hd1. revert H2'. generalize (foldl Network.seed_blob net kwargs).
    generalize (_layers net). clear. intros es.
    induction es as [|e es IH]; intros n1 E; [by injection E as <-|].
    cbn [for_each] in E. apply bind_Ok in E as (n2 & E1 & E).
    rewrite (IH n2 E). unfold Network.setup_layer in E1. bind_inv E1.
    injection E1 as <-. simpl.
    generalize (input_blobs e ++ output_blobs e). clear. intros ss. revert n1.
    induction ss as [|s ss IH]; intros n1; [done|]. simpl. rewrite IH.
    unfold Network.placeholder. by destruct (_blobs n1 !! s). }
  destruct (setup_layers_storage _ _ _ H2' Ha1 Hi1) as [Ha2 Hi2].
  apply make_diffs_fresh in H as (Hbl & Hlen & Hout & Hin & Hinj);
    [|apply NoDup_fst_map_to_list].
  assert (∀ n, n ∈ (map_to_list (_blobs net2)).*1 ↔ is_Some (_blobs net2 !! n)) as Hkeys.
  { intros n. apply elem_of_keys. }
  assert (∀ n a, _diffs net' !! n = Some a →
            is_Some (_blobs net2 !! n) ∧ length (arrays net2) ≤ a) as Hfresh.
  { intros n a Hn.
    destruct (decide (n ∈ (map_to_list (_blobs net2)).*1)) as [Hk|Hk].
    - split; [by apply Hkeys|]. destruct (Hin n Hk) as (a' & ? & ?). simplify_eq. lia.
    - exfalso. apply Hk, Hkeys, Hg2, Hg1, Hdk. rewrite <- Hd2, <- (Hout n Hk). eauto. }
  split_and!.
  - unfold blobs_alive in *. rewrite Hbl.
    intros n a Hn. specialize (Ha2 n a Hn). simpl in *. lia.
  - by rewrite Hbl.
  - intros n1 n2 a H1 H2. destruct (Hfresh n1 a H1) as [?%Hkeys _].
    destruct (Hfresh n2 a H2) as [?%Hkeys _]. by eapply Hinj.
  - intros n a Hn m b Hm ->. rewrite Hbl in Hm.
    destruct (Hfresh n b Hn) as [_ ?]. specialize (Ha2 m b Hm). simpl in Ha2. lia.
  - intros n. rewrite Hbl. split.
    + intros [a Hn]. by destruct (Hfresh n a Hn).
    + intros Hn%Hkeys. destruct (Hin n Hn) as (a & ? & _). eauto.
Qed.

Lemma setup_storage_witness :
  blobs_alive chain3_ready ∧ injective (_blobs chain3_ready) ∧
  injective (_diffs chain3_ready) ∧ separate_storage chain3_ready ∧
  (∀ n, is_Some (_diffs chain3_ready !! n) ↔ is_Some (_blobs chain3_ready !! n)).
Proof.
  apply (setup_storage chain3 chain3_ready [("x", np.vector [1; -2; 3]%Z)]).
  - vm_compute. reflexivity.
  - apply (bool_decide_unpack _). vm_compute. exact I.
  - change (_blobs chain3) with (∅ : gmap string nat).
    intros n1 n2 a H1. by rewrite lookup_empty in H1.
  - change (_diffs chain3) with (∅ : gmap string nat).
    intros n [a Hn]. by rewrite lookup_empty in Hn.
Defined.

(** ** A vector of another length for the flat parameters *)

Lemma set_loop_surplus (value extra : list Z) ks : ∀ (prms : gmap string ndarray) k,
  NoDup ks → (∀ n, n ∈ ks → is_Some (prms !! n)) →
  k + sum_list (np.size <$> omap (fun n => prms !! n) ks) ≤ length value →
  foldl (BaseLayer.set_flat_parameters_loop (value ++ extra)) (prms, k) ks
  = foldl (BaseLayer.set_flat_parameters_loop value) (prms, k) ks.
Proof.
  induction ks as [|n ks IH]; intros prms k Hnd Hin Hlen; [done|].
  apply NoDup_cons in Hnd as [Hn Hnd].
  destruct (Hin n) as [a Ha]; [left|].
  csimpl in Hlen. rewrite Ha in Hlen. csimpl in Hlen.
  cbn [foldl]. unfold BaseLayer.set_flat_parameters_loop at 2 4. rewrite Ha.
  replace (k + np.size a - k) with (np.size a) by lia.
  assert (take (np.size a) (drop k (value ++ extra)) = take (np.size a) (drop k value)) as ->.
  { rewrite drop_app_le by lia. apply take_app_le. rewrite length_drop. lia. }
  set (fa := np.flat_assign a (take (np.size a) (drop k value))).
  assert (omap (fun n0 => <[n:=fa]> prms !! n0) ks = omap (fun n0 => prms !! n0) ks) as Eo.
  { apply list_omap_ext. apply Forall_Forall2_diag, Forall_forall. intros n' Hn'.
    rewrite lookup_insert_ne; [done|]. intros ->. done. }
  apply IH; [done| |].
  - intros n' Hn'. rewrite lookup_insert_is_Some'. right. apply Hin. by right.
  - rewrite Eo. lia.
Qed.

Lemma set_loop_empty ks : ∀ (prms : gmap string ndarray) k,
  ∃ k', foldl (BaseLayer.set_flat_parameters_loop []) (prms, k) ks = (prms, k').
Proof.
  induction ks as [|n ks IH]; intros prms k; [by eexists|].
  cbn [foldl]. unfold BaseLayer.set_flat_parameters_loop at 2.
  destruct (prms !! n) as [a|] eqn:Ha; [|apply IH].
  rewrite drop_nil, take_nil. unfold np.flat_assign.
  rewrite insert_id by done. apply IH.
Qed.

(** X16: Assigning to [flat_parameters] does not check the length of the
    vector: the elements past the number of parameter elements are ignored,
    and an empty vector leaves every parameter as it is. *)
Theorem set_flat_parameters_other_length (l : Layer) (v extra : list Z) :
  total_size (prms_ l) ≤ length v →
  BaseLayer.set_flat_parameters l (v ++ extra) = BaseLayer.set_flat_parameters l v ∧
  BaseLayer.set_flat_parameters l [] = l.
Proof.
  intros Hlen. split.
  - unfold BaseLayer.set_flat_parameters. rewrite set_loop_surplus; [done|..].
    + apply NoDup_sorted.
    + intros n. apply elem_of_sorted.
    + rewrite total_size_sorted in Hlen. unfold BaseLayer.in_sorted_order in Hlen. lia.
  - unfold BaseLayer.set_flat_parameters.
    destruct (set_loop_empty (sorted (prms_ l)) (prms_ l) 0) as [k' ->]. by destruct l.
Qed.

Lemma set_flat_parameters_other_length_witness :
  BaseLayer.set_flat_parameters sample_affine ([7; 8; 9] ++ [10; 11])%Z
    = BaseLayer.set_flat_parameters sample_affine [7; 8; 9]%Z ∧
  BaseLayer.set_flat_parameters sample_affine [] = sample_affine.
Proof.
  apply (set_flat_parameters_other_length sample_affine [7; 8; 9]%Z [10; 11]%Z).
  vm_compute. lia.
Defined.

(** ** The error of a refused keyword *)




(** The message for the keyword [slope], and the error for [type]. *)
Example refused_keyword_messages :
  new_layer CSigmoid [("sigma", PyNum 2); ("slope", PyNum 1)]
    = Raise (Exception "Attribute 'slope' not found") ∧
  new_layer CReLU [("type", PyStr "x")] = Raise AttributeError ∧
  new_layer CReLU [("parameters", PyNone)]
    = Raise (Exception "Attribute 'parameters' not found").
Proof. split_and!; reflexivity. Qed.

(** ** The blobs [setup] creates for its keywords *)









(** ** Nested snapshots *)

(** [popState] after a [pushState] brings the blobs back when the arrays of
    the snapshot were left alone, whatever was allocated since. *)
Lemma popState_restores net net1 net2 :
  blobs_alive net → Network.pushState net = Ok net1 →
  _blob_history net2 = _blob_history net1 →
  (∀ a v, length (arrays net) ≤ a → arrays net1 !! a = Some v → arrays net2 !! a = Some v) →
  ∃ net3, Network.popState net2 = Ok net3 ∧
          (∀ n, Network.blob net3 n = Network.blob net n) ∧
          _blob_history net3 = _blob_history net ∧
          arrays net3 = arrays net2 ∧ objects net3 = objects net2 ∧
          _diffs net3 = _diffs net2 ∧ _layers net3 = _layers net2.
Proof.
  intros Halive Hpush Hhist Hframe.
  destruct (pushState_spec net net1 Halive Hpush)
    as (snap & Hh & Hpre & _ & _ & _ & _ & _ & Hnone & Hsome).
  unfold Network.popState. rewrite Hhist, Hh, last_snoc.
  eexists. split; [done|]. simpl. rewrite removelast_last. split_and!; try done.
  intros n. unfold Network.blob. simpl.
  destruct (_blobs net !! n) as [a|] eqn:En; simpl.
  - destruct (Hsome n a En) as (a' & v & -> & Hle & Hv & Hv'). simpl.
    rewrite (Hframe a' v Hle Hv'). congruence.
  - by rewrite (Hnone n En).
Qed.

(** X19: The history is a stack: after two [pushState], each followed by a
    forward pass, the first [popState] brings back the blobs of the second
    [pushState] and the second [popState] those of the first; the history
    is then as it was at the start. *)
Theorem nested_snapshots `{Numerics} (net net1 net2 net3 net4 : Network)
    (kw1 kw2 : list (string * ndarray)) :
  blobs_alive net →
  Network.pushState net = Ok net1 → Network.forward1 net1 kw1 = Ok net2 →
  Network.pushState net2 = Ok net3 → Network.forward1 net3 kw2 = Ok net4 →
  ∃ net5 net6,
    Network.popState net4 = Ok net5 ∧
    (∀ n, Network.blob net5 n = Network.blob net2 n) ∧
    Network.popState net5 = Ok net6 ∧
    (∀ n, Network.blob net6 n = Network.blob net n) ∧
    _blob_history net6 = _blob_history net.
Proof.
  intros Halive Hp1 Hf1 Hp2 Hf2.
  destruct (pushState_spec net net1 Halive Hp1)
    as (snap1 & Hh1 & Hpre1 & _ & _ & Hb1 & _).
  destruct (forward1_rewrites net1 kw1 net2 Hf1)
    as (Hb2 & _ & Hh2 & _ & _ & Hlen2 & Hfr2).
  assert (blobs_alive net2) as Halive2.
  { intros n a Hn. rewrite Hb2, Hb1 in Hn. specialize (Halive n a Hn). simpl in *.
    apply prefix_length in Hpre1. lia. }
  destruct (pushState_spec net2 net3 Halive2 Hp2)
    as (snap2 & Hh3 & Hpre3 & _ & _ & Hb3 & _).
  destruct (forward1_rewrites net3 kw2 net4 Hf2)
    as (Hb4 & _ & Hh4 & _ & _ & Hlen4 & Hfr4).
  destruct (popState_restores net2 net3 net4 Halive2 Hp2 Hh4)
    as (net5 & Hpop5 & Hblob5 & Hhist5 & Harr5 & _).
  { intros a v Ha Hv. rewrite Hfr4; [done|]. intros [n Hn]. rewrite Hb3 in Hn.
    specialize (Halive2 n a Hn). simpl in Halive2. lia. }
  destruct (popState_restores net net1 net5 Halive Hp1)
    as (net6 & Hpop6 & Hblob6 & Hhist6 & _).
  { congruence. }
  { intros a v Ha Hv. rewrite Harr5.
    assert (arrays net2 !! a = Some v) as Hv2.
    { rewrite Hfr2; [done|]. intros [n Hn]. rewrite Hb1 in Hn.
      specialize (Halive n a Hn). simpl in Halive. lia. }
    rewrite Hfr4.
    - by eapply prefix_lookup_Some.
    - intros [n Hn]. rewrite Hb3, Hb2, Hb1 in Hn.
      specialize (Halive n a Hn). simpl in Halive. lia. }
  exists net5, net6. done.
Qed.

Lemma nested_snapshots_witness :
  ∃ net5 net6,
    Network.popState chain3_forward2 = Ok net5 ∧
    (∀ n, Network.blob net5 n = Network.blob chain3_forward n) ∧
    Network.popState net5 = Ok net6 ∧
    (∀ n, Network.blob net6 n = Network.blob chain3_ready n) ∧
    _blob_history net6 = _blob_history chain3_ready.
Proof.
  apply (nested_snapshots (H := sample_numerics)
           chain3_ready chain3_pushed chain3_forward chain3_pushed2 chain3_forward2
           [("x", np.vector [5; -6; 7]%Z)] [("x", np.vector [-8; 9; 0]%Z)]).
  - apply (bool_decide_unpack _). vm_compute. exact I.
  - vm_compute. reflexivity.
  - vm_compute. reflexivity.
  - vm_compute. reflexivity.
  - vm_compute. reflexivity.
Defined.

(** Without a snapshot there is nothing to bring back. *)
Example popState_empty_history : Network.popState chain3_ready = Raise IndexError.
Proof. reflexivity. Qed.

(** ** Gradients shaped like the parameters *)

Lemma broadcast_to_shape a t r : np.broadcast_to a t = Some r → shape r = t ∧ np.wf r.
Proof.
  unfold np.broadcast_to. case_bool_decide; [|done].
  destruct (np.dims_compat _ _); [|done]. intros [= <-]. split; [done|].
  unfold np.wf, np.size, np.build. simpl. by rewrite length_fmap, length_indices.
Qed.

Lemma assign_shape x v r : np.assign x v = Ok r → shape r = shape x ∧ np.wf r.
Proof.
  unfold np.assign. destruct (np.broadcast_to _ _) as [r'|] eqn:E; [|done].
  intros [= <-]. by eapply broadcast_to_shape.
Qed.

Lemma flat_assign_shape x l : np.wf x → shape (np.flat_assign x l) = shape x ∧ np.wf (np.flat_assign x l).
Proof.
  intros Hx. unfold np.flat_assign. destruct l; [done|]. split; [done|].
  unfold np.wf, np.size. simpl. by rewrite length_fmap, length_seq.
Qed.

Lemma set_loop_shapes value ks : ∀ (prms prms' : gmap string ndarray) k k',
  foldl (BaseLayer.set_flat_parameters_loop value) (prms, k) ks = (prms', k') →
  map_Forall (fun _ a => np.wf a) prms →
  (∀ n, shape <$> prms' !! n = shape <$> prms !! n) ∧
  map_Forall (fun _ a => np.wf a) prms'.
Proof.
  induction ks as [|n ks IH]; intros prms prms' k k' E Hwf.
  - by injection E as <- <-.
  - cbn [foldl] in E. unfold BaseLayer.set_flat_parameters_loop at 2 in E.
    destruct (prms !! n) as [a|] eqn:Ha; [|by eapply IH].
    destruct (flat_assign_shape a (take (k + np.size a - k) (drop k value))) as [Hs Hw];
      [by apply (Hwf n)|].
    apply IH in E as [Hsh Hwf'].
    + split; [|done]. intros m. rewrite Hsh.
      destruct (decide (m = n)) as [->|Hne].
      * rewrite lookup_insert_eq, Ha. simpl. by rewrite Hs.
      * by rewrite lookup_insert_ne.
    + by apply map_Forall_insert_2.
Qed.

Lemma flat_lengths (p g : gmap string ndarray) ks :
  (∀ n, shape <$> g !! n = shape <$> p !! n) →
  map_Forall (fun _ a => np.wf a) p → map_Forall (fun _ a => np.wf a) g →
  length (concat (data <$> (np.ravel <$> omap (fun n => g !! n) ks)))
  = length (concat (data <$> (np.ravel <$> omap (fun n => p !! n) ks))).
Proof.
  intros Hs Hp Hg. induction ks as [|n ks IH]; [done|]. csimpl.
  specialize (Hs n).
  destruct (g !! n) as [a|] eqn:Ea, (p !! n) as [b|] eqn:Eb; simplify_eq/=; [|done].
  rewrite !length_app, IH. f_equal.
  specialize (Hp n b Eb). specialize (Hg n a Ea).
  unfold np.wf, np.size in *. simpl in *. congruence.
Qed.

(** X20: Every method of a layer keeps its gradients named and shaped like its
    parameters: [setup], [forward], [backward] and the assignment to
    [flat_parameters] (of a vector of any length) preserve it. The flat
    gradient then has the length of the flat parameters. *)
Theorem layer_storage_consistent `{Numerics} (l : Layer) :
  consistent l →
  (∀ h bottom top l' h', layer_setup l h bottom top = Ok (l', h') → consistent l') ∧
  (∀ h bottom top l' h', layer_forward l h bottom top = Ok (l', h') → consistent l') ∧
  (∀ h bottom top botgrad topgrad l' h',
     layer_backward l h bottom top botgrad topgrad = Ok (l', h') → consistent l') ∧
  (∀ value, consistent (BaseLayer.set_flat_parameters l value)) ∧
  (∀ p g, BaseLayer.flat_parameters l = Ok p → BaseLayer.flat_gradient l = Ok g →
          shape g = shape p).
Proof.
  intros (Hs & Hp & Hg). split_and!.
  - intros h bottom top l' h'. unfold layer_setup.
    destruct (cls l); unfold BaseLayer.setup, ReLU.setup, Sigmoid.setup,
      InnerProduct.setup, SoftMax.setup; intros E.
    + by injection E as <- _.
    + apply bind_Ok in E as (? & _ & [= <- _]). done.
    + apply bind_Ok in E as (? & _ & [= <- _]). done.
    + destruct bottom as [|? [|??]], top as [|? [|??]]; try done.
      bind_inv E. injection E as <- _. unfold consistent. simpl. split_and!.
      * intros key. destruct (decide (key = "b")) as [->|Hb].
        { by rewrite !lookup_insert_eq. }
        rewrite !(lookup_insert_ne _ "b") by done.
        destruct (decide (key = "w")) as [->|Hw].
        { by rewrite !lookup_insert_eq. }
        rewrite !(lookup_insert_ne _ "w") by done. apply Hs.
      * repeat apply map_Forall_insert_2; try apply wf_zeros. done.
      * repeat apply map_Forall_insert_2; try apply wf_zeros. done.
    + by destruct bottom as [|? [|??]], top as [|? [|??]].
  - intros h bottom top l' h' E. apply layer_forward_writes_top in E as [-> _]. done.
  - intros h bottom top botgrad topgrad l' h'. unfold layer_backward.
    destruct (cls l).
    + by intros [= <- _].
    + unfold ReLU.backward. intros E. apply bind_Ok in E as (? & _ & [= <- _]). done.
    + unfold Sigmoid.backward. intros E. apply bind_Ok in E as (? & _ & [= <- _]). done.
    + unfold InnerProduct.backward, InnerProduct.item. intros E.
      apply bind_Ok in E as (dt & _ & E). apply bind_Ok in E as (vdt & _ & E).
      apply bind_Ok in E as (gw & Hgw & E). apply bind_Ok in E as (g & _ & E).
      apply bind_Ok in E as (db & _ & E). apply bind_Ok in E as (vdb & _ & E).
      apply bind_Ok in E as (r & _ & E). apply bind_Ok in E as (vdt' & _ & E).
      apply bind_Ok in E as (b & _ & E). apply bind_Ok in E as (vb & _ & E).
      apply bind_Ok in E as (p & _ & E). apply bind_Ok in E as (gw0 & Hgw0 & E).
      apply bind_Ok in E as (gw' & Hagw & E). apply bind_Ok in E as (vdt'' & _ & E).
      apply bind_Ok in E as (s & _ & E). apply bind_Ok in E as (gb & Hgb & E).
      apply bind_Ok in E as (gb' & Hagb & E). injection E as <- _.
      apply assign_shape in Hagw as [Hsw Hww]. apply assign_shape in Hagb as [Hsb Hwb].
      destruct (grad_ l !! "w") as [gw1|] eqn:Ew; simplify_eq/=.
      unfold consistent. simpl. split_and!; [|done|].
      * intros key. destruct (decide (key = "b")) as [->|Hb].
        { rewrite lookup_insert_eq. simpl. rewrite Hsb, <- Hs.
          destruct (decide ("b" = "w")) as [?|Hbw]; [done|].
          rewrite lookup_insert_ne in Hgb by done.
          by destruct (grad_ l !! "b"); simplify_eq/=. }
        rewrite (lookup_insert_ne _ "b") by done.
        destruct (decide (key = "w")) as [->|Hw].
        { rewrite lookup_insert_eq. simpl. rewrite Hsw, <- Hs. by rewrite Ew. }
        rewrite (lookup_insert_ne _ "w") by done. apply Hs.
      * repeat apply map_Forall_insert_2; done.
    + by intros [= <- _].
  - intros value. unfold BaseLayer.set_flat_parameters.
    destruct (foldl _ _ _) as [prms' k'] eqn:E.
    apply set_loop_shapes in E as [Hsh Hwf]; [|done].
    unfold consistent. simpl. split_and!; [|done|done].
    intros n. by rewrite Hs, Hsh.
  - intros p g. unfold BaseLayer.flat_parameters, BaseLayer.flat_gradient,
      BaseLayer.in_sorted_order.
    assert (sorted (grad_ l) = sorted (prms_ l)) as ->.
    { apply sorted_ext. intros n. specialize (Hs n).
      destruct (grad_ l !! n), (prms_ l !! n); simplify_eq/=; split; intros [??]; eauto. }
    case_bool_decide as Hsz.
    { assert (prms_ l = ∅) as -> by (apply map_size_empty_iff; lia).
      rewrite sorted_empty. done. }
    unfold np.concatenate.
    destruct (np.ravel <$> omap (fun n => prms_ l !! n) (sorted (prms_ l))) eqn:Ep;
      [done|]. rewrite <- Ep. clear Ep.
    destruct (forallb _ _); [|done]. intros [= <-].
    destruct (np.ravel <$> omap (fun n => grad_ l !! n) (sorted (prms_ l))) eqn:Eg;
      [done|]. rewrite <- Eg. clear Eg.
    destruct (forallb _ _); [|done]. intros [= <-].
    unfold np.vector. simpl. f_equal. by apply flat_lengths.
Qed.

Lemma layer_storage_consistent_witness :
  (∀ h bottom top l' h',
     layer_setup affine221_ready.1 h bottom top = Ok (l', h') → consistent l') ∧
  (∀ h bottom top l' h',
     layer_forward (H := sample_numerics) affine221_ready.1 h bottom top = Ok (l', h') →
     consistent l') ∧
  (∀ h bottom top botgrad topgrad l' h',
     layer_backward affine221_ready.1 h bottom top botgrad topgrad = Ok (l', h') →
     consistent l') ∧
  (∀ value, consistent (BaseLayer.set_flat_parameters affine221_ready.1 value)) ∧
  (∀ p g, BaseLayer.flat_parameters affine221_ready.1 = Ok p →
          BaseLayer.flat_gradient affine221_ready.1 = Ok g → shape g = shape p).
Proof.
  apply (layer_storage_consistent (H := sample_numerics) affine221_ready.1).
  split_and!.
  - intros n. reflexivity.
  - apply (bool_decide_unpack _). vm_compute. exact I.
  - apply (bool_decide_unpack _). vm_compute. exact I.
Defined.

(** A new layer has neither parameters nor gradients. *)
Lemma new_layer_consistent c lPrms l : new_layer c lPrms = Ok l → consistent l.
Proof.
  intros E. assert (grad_ l = ∅ ∧ prms_ l = ∅) as [Hg Hp].
  { destruct (decide (c = CInnerProduct)) as [->|Hc].
    - simpl in E. unfold InnerProduct.__init__ in E.
      apply bind_Ok in E as (l0 & E0 & E). apply bind_Ok in E as (v & _ & [= <-]). simpl.
      pose proof (BaseLayer_init_spec CInnerProduct lPrms) as H. rewrite E0 in H.
      destruct H as [_ ->]. done.
    - by destruct (new_layer_no_storage c lPrms l Hc E) as (_ & ? & ?). }
  unfold consistent. rewrite Hg, Hp. split_and!; try apply map_Forall_empty. done.
Qed.
